(** * dataEng_container_tools.bq: the BigQuery facade [BQ]

    A shallow embedding of [src/dataEng_container_tools/bq.py] and the
    properties its specification states about it.

    Layout:
    - [Py]      : the fragment of Python the module relies on (strings,
                  list indexing and slicing, values, exceptions);
    - [Eff]     : the effect monad (exceptions + a state made of the local
                  file system, a logical clock and the trace of calls made
                  to the SDK, the logger and the file system);
    - [SimpleJson] : a reference JSON codec on a small fragment, used for
                  concrete evaluations only;
    - [BQ]      : the methods of class [BQ], one definition per method;
    - the theorems.

    Python [str] values are modelled as [string] (byte strings).  Every
    separator the module looks for ("/", "." and the prefix "gs://") is
    ASCII, and an ASCII byte never occurs inside the UTF-8 encoding of a
    non-ASCII character, so splitting and prefix tests on bytes agree with
    Python's on code points. *)

From Stdlib Require Import ZArith Ascii String List Lia.
From stdpp Require Import base option list strings pretty gmap.

#[local] Set Warnings "-register-all".
#[local] Open Scope string_scope.

(* ===================================================================== *)
(** ** The Python fragment *)
(* ===================================================================== *)

Module Py.

(** *** Exceptions

    [KeyboardInterrupt] stands for the classes that derive from
    [BaseException] but not from [Exception]; an [except Exception]
    clause does not catch them.  [exn_message e] is the message the
    exception was built with.  Exception instances are truthy:
    [BaseException] defines neither [__bool__] nor [__len__], and neither
    do the classes the SDK raises. *)

Inductive exn_class :=
| NotFound
| AttributeError
| ValueError
| IndexError
| FileNotFoundError
| JSONDecodeError
| KeyboardInterrupt
| OtherException (name : string).

Record exn := Exn { exn_cls : exn_class; exn_message : string }.

(** [str(e)].  The SDK's API errors, of which [NotFound] is one, print
    their HTTP status code before the message. *)
Definition str_of_exn (e : exn) : string :=
  match exn_cls e with
  | NotFound => "404 " ++ exn_message e
  | _ => exn_message e
  end.

Definition is_Exception (e : exn) : bool :=
  match exn_cls e with
  | KeyboardInterrupt => false
  | _ => true
  end.

Definition is_NotFound (e : exn) : bool :=
  match exn_cls e with
  | NotFound => true
  | _ => false
  end.

(** The outcome of evaluating an expression or a call. *)
Inductive result (A : Type) :=
| Ok (a : A)
| Raise (e : exn).
Arguments Ok {A} a.
Arguments Raise {A} e.

(** *** Strings *)

(** [s.startswith(p)] *)
Fixpoint startswith (p s : string) : bool :=
  match p, s with
  | EmptyString, _ => true
  | String a p', String b s' => if Ascii.eqb a b then startswith p' s' else false
  | String _ _, EmptyString => false
  end.

(** [s[n:]] for [n >= 0] *)
Fixpoint str_from (n : nat) (s : string) : string :=
  match n, s with
  | O, _ => s
  | S n', String _ s' => str_from n' s'
  | S _, EmptyString => EmptyString
  end.

(** [s.split(sep)] for a separator of one character.  The result is
    never empty: [''.split('/') == ['']]. *)
Fixpoint split (sep : ascii) (s : string) : list string :=
  match s with
  | EmptyString => [EmptyString]
  | String c s' =>
      if Ascii.eqb c sep then EmptyString :: split sep s'
      else match split sep s' with
           | [] => [String c EmptyString]
           | w :: ws => String c w :: ws
           end
  end.

(** [sep.join(l)] *)
Definition join (sep : string) (l : list string) : string :=
  String.concat sep l.

(** [c in s] for a character [c] *)
Fixpoint contains (c : ascii) (s : string) : bool :=
  match s with
  | EmptyString => false
  | String a s' => if Ascii.eqb a c then true else contains c s'
  end.

(** *** Lists *)

Definition index_error : exn := Exn IndexError "list index out of range".

(** [l[0]] *)
Definition first {A} (l : list A) : result A :=
  match l !! 0%nat with
  | Some x => Ok x
  | None => Raise index_error
  end.

(** [l[-1]] *)
Definition last_item {A} (l : list A) : result A :=
  match last l with
  | Some x => Ok x
  | None => Raise index_error
  end.

(** [l[lo:-k]] for [lo >= 0] and [k > 0]: the items from index [lo] up
    to, and excluding, index [len(l) - k].  Slicing never raises. *)
Definition slice_to_end_minus {A} (lo k : nat) (l : list A) : list A :=
  take (length l - k - lo) (drop lo l).

(** *** Values

    The values that flow through the module without being inspected,
    except for their truthiness, their attributes ([hasattr], [getattr])
    and the [ctime()] method of dates.  A [datetime] is represented by
    the text its [ctime()] method returns. *)

Inductive value :=
| PyNone
| PyBool (b : bool)
| PyInt (n : Z)
| PyStr (s : string)
| PyDatetime (ctime : string)
| PyList (items : list value)
| PyObj (attrs : gmap string value).

(** [bool(v)] *)
Definition truthy (v : value) : bool :=
  match v with
  | PyNone => false
  | PyBool b => b
  | PyInt n => negb (Z.eqb n 0)
  | PyStr s => negb (String.eqb s "")
  | PyDatetime _ => true
  | PyList items => match items with [] => false | _ => true end
  | PyObj _ => true
  end.

(** The attributes of a value, for the attribute names the module asks
    for ([started], [ended], [errors], [total_bytes_billed],
    [total_bytes_processed], [total_rows], [query_plan],
    [destination]): only objects carry any of them. *)
Definition attrs_of (v : value) : gmap string value :=
  match v with
  | PyObj attrs => attrs
  | _ => ∅
  end.

(** [hasattr(v, name)] *)
Definition hasattr (v : value) (name : string) : bool :=
  bool_decide (is_Some (attrs_of v !! name)).

Definition attribute_error (name : string) : exn :=
  Exn AttributeError ("object has no attribute '" ++ name ++ "'").

(** [v.name] *)
Definition getattr (v : value) (name : string) : result value :=
  match attrs_of v !! name with
  | Some x => Ok x
  | None => Raise (attribute_error name)
  end.

(** [v.ctime()] *)
Definition ctime_of (v : value) : result value :=
  match v with
  | PyDatetime c => Ok (PyStr c)
  | _ => Raise (attribute_error "ctime")
  end.

End Py.
Export Py.

(* ===================================================================== *)
(** ** The SDK's data: formats, job configurations, jobs *)
(* ===================================================================== *)

Module Sdk.

(** [google.cloud.bigquery.enums.SourceFormat], the members in use *)
Inductive SourceFormat := PARQUET | NEWLINE_DELIMITED_JSON | AVRO | CSV.

#[global] Instance SourceFormat_eq_dec : EqDecision SourceFormat.
Proof. solve_decision. Defined.

(** [google.cloud.bigquery.job.WriteDisposition] *)
Inductive WriteDisposition := WRITE_APPEND | WRITE_TRUNCATE | WRITE_EMPTY.

(** A configuration property that no keyword argument sets is [None]. *)
Record ExtractJobConfig := mkExtractJobConfig {
  destination_format : option SourceFormat;
  field_delimiter : option string
}.

Record LoadJobConfig := mkLoadJobConfig {
  autodetect : option bool;
  write_disposition : option WriteDisposition;
  source_format : option SourceFormat
}.

Record DatasetReference := mkDatasetReference {
  dataset_project : string;
  dataset_id : string
}.

Record TableReference := mkTableReference {
  table_dataset : DatasetReference;
  table_name : string
}.

(** The job objects the module builds, by constructor and arguments (the
    client argument is the one client of the facade). *)
Inductive job :=
| QueryJob (job_id query : string)
| ExtractJob (job_id : string) (source : value) (destination_uri : string)
             (job_config : ExtractJobConfig)
| LoadJob (job_id : string) (source_uri : string) (destination : TableReference)
          (job_config : LoadJobConfig).

Definition is_load_job (j : job) : bool :=
  match j with LoadJob _ _ _ _ => true | _ => false end.

Definition is_extract_job (j : job) : bool :=
  match j with ExtractJob _ _ _ _ => true | _ => false end.

(** [json.load] yields dictionaries (insertion-ordered, hence the
    association list), lists, strings, numbers, booleans and [None];
    a float is represented by its [repr]. *)
Inductive json :=
| JNull
| JBool (b : bool)
| JInt (n : Z)
| JFloat (repr : string)
| JStr (s : string)
| JList (items : list json)
| JDict (entries : list (string * json)).

End Sdk.
Export Sdk.

(** The Job Result Record: the dictionary literal of [__get_results],
  whose eight keys are fixed. *)
Record job_result := mkJobResult {
start_time : value;
end_time : value;
job_errors : value;
total_bytes_billed : value;
total_bytes_processed : value;
total_rows_returned : value;
query_plan : value;
job_results : value
}.

(* ===================================================================== *)
(** ** Effects *)
(* ===================================================================== *)

Module Eff.

(** What the facade does to the outside, in order. *)
Inductive event :=
| FileRead (path : string)
| FileWrite (path content : string)
| ClientFromServiceAccountJson (path content : string)
| GetTable (table_id : string)
| JobNew (j : job)                 (* a job constructor is called *)
| JobResult (j : job)              (* [j.result()]: submit and wait *)
| GetServiceAccountEmail
| LogError (msg : string)
| LogInfo (r : job_result).

(** Everything outside the module: the remote service behind the SDK,
    the clock, the random generator and the [json] codec. *)
Record world := mkWorld {
  (** [datetime.now().strftime("%Y-%m-%d-%H-%M-%S")] at the n-th reading *)
  now_strftime : nat → string;
  (** the index [random.choice] picks at the n-th draw *)
  random_index : nat → nat;
  (** [json.load] on a file's text and [json.dump]'s output *)
  json_load : string → result json;
  json_dump : json → string;
  (** [Client.from_service_account_json] on a file's text *)
  client_from_json : string → result unit;
  (** [client.get_table(table_id)] *)
  get_table : string → result unit;
  (** [client.get_service_account_email()] *)
  get_service_account_email : result string;
  (** [job.result()] *)
  job_wait : job → result value;
  (** the attributes of the job object once [result()] has returned *)
  job_attrs : job → gmap string value
}.

Record state := mkState {
  fs : gmap string string;      (* local files: path to text *)
  clock : nat;                  (* readings of the clock so far *)
  draws : nat;                  (* random draws so far *)
  trace : list event            (* oldest first *)
}.

Definition M (A : Type) : Type := state → result A * state.

Definition ret {A} (a : A) : M A := λ st, (Ok a, st).

Definition bind {A B} (m : M A) (k : A → M B) : M B :=
  λ st, match m st with
        | (Ok a, st') => k a st'
        | (Raise e, st') => (Raise e, st')
        end.

Definition raise {A} (e : exn) : M A := λ st, (Raise e, st).

Definition lift {A} (r : result A) : M A := λ st, (r, st).

(** [try: body  except C as e: handler(e)], where [catches e] tells
    whether [e] is an instance of [C]. *)
Definition try_except {A} (catches : exn → bool) (body : M A)
           (handler : exn → M A) : M A :=
  λ st, match body st with
        | (Ok a, st') => (Ok a, st')
        | (Raise e, st') =>
            if catches e then handler e st' else (Raise e, st')
        end.

(** The state after some more events. *)
Definition add_events (st : state) (evs : list event) : state :=
  mkState (fs st) (clock st) (draws st) (trace st ++ evs).

Definition emit (ev : event) : M unit :=
  λ st, (Ok tt, add_events st [ev]).

Definition tick_clock : M nat :=
  λ st, (Ok (clock st), mkState (fs st) (S (clock st)) (draws st) (trace st)).

Definition tick_draw : M nat :=
  λ st, (Ok (draws st), mkState (fs st) (clock st) (S (draws st)) (trace st)).

Definition file_not_found (path : string) : exn :=
  Exn FileNotFoundError ("No such file or directory: '" ++ path ++ "'").

(** [with open(path, 'r') as f: f.read()] *)
Definition read_file (path : string) : M string :=
  λ st, match fs st !! path with
        | Some text => (Ok text, add_events st [FileRead path])
        | None => (Raise (file_not_found path), st)
        end.

(** [with open(path, 'w') as f: f.write(text)]: creates or overwrites *)
Definition write_file (path text : string) : M unit :=
  λ st, (Ok tt, mkState (<[path := text]> (fs st)) (clock st) (draws st)
                        (trace st ++ [FileWrite path text])).

Definition get_fs : M (gmap string string) := λ st, (Ok (fs st), st).

End Eff.
Export Eff.

#[global] Instance M_ret : MRet M := @Eff.ret.
#[global] Instance M_bind : MBind M := λ A B k m, Eff.bind m k.

(* ===================================================================== *)
(** ** Class [BQ] *)
(* ===================================================================== *)

Module BQ.
Section methods.

(** The instance attributes [self.bq_client] and [self.logger] are the one
    client and the one logger of the world [W]. *)
Variable W : world.

Definition newline : string := String (ascii_of_nat 10) EmptyString.

(** *** Calls out of the module *)

Definition logger_error (msg : string) : M unit := emit (LogError msg).

Definition logger_info (r : job_result) : M unit := emit (LogInfo r).

(** [self.bq_client.get_service_account_email()] *)
Definition client_get_service_account_email : M string :=
  emit GetServiceAccountEmail;; lift (get_service_account_email W).

(** [client.get_table(table_id)] *)
Definition client_get_table (table_id : string) : M unit :=
  emit (GetTable table_id);; lift (get_table W table_id).

(** [GBQ.Client.from_service_account_json(path)]: reads the file *)
Definition client_from_service_account_json (path : string) : M unit :=
  files ← get_fs;
  match files !! path with
  | Some text =>
      emit (ClientFromServiceAccountJson path text);;
      lift (client_from_json W text)
  | None => raise (file_not_found path)
  end.

(** A job constructor: builds the local object, contacts nobody. *)
Definition new_job (j : job) : M job := emit (JobNew j);; mret j.

(** [bq_job.result()] *)
Definition job_result_call (bq_job : job) : M value :=
  emit (JobResult bq_job);; lift (job_wait W bq_job).

(** The job object as [hasattr] and attribute access see it. *)
Definition job_object (bq_job : job) : value := PyObj (job_attrs W bq_job).

(** [random.choice(seq)] *)
Definition random_choice (seq : string) : M string :=
  n ← tick_draw;
  match String.get (random_index W n mod String.length seq) seq with
  | Some c => mret (String c EmptyString)
  | None => raise (Exn IndexError "Cannot choose from an empty sequence")
  end.

(** [[random.choice(seq) for i in range(n)]] *)
Fixpoint random_choices (n : nat) (seq : string) : M (list string) :=
  match n with
  | O => mret []
  | S n' => c ← random_choice seq; cs ← random_choices n' seq; mret (c :: cs)
  end.

(** [datetime.now().strftime("%Y-%m-%d-%H-%M-%S")] *)
Definition now_formatted : M string :=
  n ← tick_clock; mret (now_strftime W n).

(** *** The methods *)

Definition ascii_letters : string :=
  "abcdefghijklmnopqrstuvwxyzABCDEFGHIJKLMNOPQRSTUVWXYZ".

Definition digits : string := "0123456789".

(** [BQ.__create_job_id] *)
Definition create_job_id (project_id job_type : string) : M string :=
  let chars := ascii_letters ++ digits in
  picked ← random_choices 10 chars;
  let random_string := join "" picked in
  now ← now_formatted;
  mret (project_id ++ "-" ++ job_type ++ "-" ++ now ++ "-" ++ random_string).

(** [BQ.__get_parts] *)
Definition get_parts (gcs_uri : string) : result (string * string * string) :=
  let gcs_uri := if startswith "gs://" gcs_uri then str_from 5 gcs_uri else gcs_uri in
  let uri_parts := split "/" gcs_uri in
  match first uri_parts with
  | Raise e => Raise e
  | Ok bucket =>
      let path := join "" (slice_to_end_minus 1 1 uri_parts) in
      match last_item uri_parts with
      | Raise e => Raise e
      | Ok filename => Ok (bucket, path, filename)
      end
  end.

(** [BQ.__get_file_type] *)
Definition get_file_type (suffix : string) : SourceFormat :=
  if String.eqb suffix "parquet" then PARQUET
  else if String.eqb suffix "json" then NEWLINE_DELIMITED_JSON
  else if String.eqb suffix "avro" then AVRO
  else CSV.

(** [None if not hasattr(obj, name) else obj.name] *)
Definition attr_or_none (obj : value) (name : string) : M value :=
  if negb (hasattr obj name) then mret PyNone else lift (getattr obj name).

(** [None if not obj.name else obj.name.ctime()] *)
Definition ctime_or_none (obj : value) (name : string) : M value :=
  t ← lift (getattr obj name);
  if negb (truthy t) then mret PyNone
  else t' ← lift (getattr obj name); lift (ctime_of t').

(** [BQ.__get_results] *)
Definition get_results (bq_job : job) : M job_result :=
  '(bq_job_results, job_exception) ←
    try_except is_Exception
      (r ← job_result_call bq_job; mret (r, None))
      (λ e,
         email ← client_get_service_account_email;
         logger_error ("Error: " ++ str_of_exn e ++ newline ++ newline
                       ++ "BQ Service Account: " ++ email ++ newline);;
         mret (PyNone, Some e));
  match job_exception with
  | Some e => raise e
  | None =>
      let obj := job_object bq_job in
      v_start ← ctime_or_none obj "started";
      v_end ← ctime_or_none obj "ended";
      v_errors ← (if hasattr obj "errors" then mret PyNone
                  else lift (getattr obj "errors"));
      v_billed ← attr_or_none obj "total_bytes_billed";
      v_processed ← attr_or_none obj "total_bytes_processed";
      v_rows ← attr_or_none bq_job_results "total_rows";
      v_plan ← attr_or_none obj "query_plan";
      let job_result :=
        mkJobResult v_start v_end v_errors v_billed v_processed v_rows v_plan
                    bq_job_results in
      logger_info job_result;;
      mret job_result
  end.

(** [BQ.send_to_gcs] *)
Definition send_to_gcs (query project_id output_uri delimiter : string)
  : M (gmap string job_result) :=
  let job_results : gmap string job_result := ∅ in
  id_q ← create_job_id project_id "queryJob";
  queryJob ← new_job (QueryJob id_q query);
  r_q ← get_results queryJob;
  let job_results := <["queryJob" := r_q]> job_results in
  output_type ← lift (last_item (split "." output_uri));
  let dest_format := get_file_type output_type in
  let config :=
    if decide (dest_format = CSV)
    then mkExtractJobConfig (Some dest_format) (Some delimiter)
    else mkExtractJobConfig (Some dest_format) None in
  id_e ← create_job_id project_id "extractJob";
  destination ← lift (getattr (job_object queryJob) "destination");
  extractJob ← new_job (ExtractJob id_e destination output_uri config);
  r_e ← get_results extractJob;
  let job_results := <["extractJob" := r_e]> job_results in
  mret job_results.

(** [send_to_gcs] called without its [delimiter] argument *)
Definition send_to_gcs_default (query project_id output_uri : string)
  : M (gmap string job_result) :=
  send_to_gcs query project_id output_uri ",".

(** [a, b, c = l] *)
Definition unpack3 {A} (l : list A) : result (A * A * A) :=
  match l with
  | [a; b; c] => Ok (a, b, c)
  | _ => Raise (Exn ValueError
                    (if decide (length l < 3)%nat
                     then "not enough values to unpack (expected 3, got "
                          ++ pretty (length l) ++ ")"
                     else "too many values to unpack (expected 3)"))
  end.

Definition table_not_found (table_id : string) : exn :=
  Exn NotFound ("Create " ++ table_id
                ++ " using terraform in Github before running the container").

(** [BQ.load_from_gcs] *)
Definition load_from_gcs (table_id input_uri : string)
  : M (gmap string job_result) :=
  let job_results : gmap string job_result := ∅ in
  try_except is_NotFound
    (client_get_table table_id)
    (λ _, raise (table_not_found table_id));;
  '(project_id, ds_id, table_name) ← lift (unpack3 (split "." table_id));
  let dataset := mkDatasetReference project_id ds_id in
  let output_table := mkTableReference dataset table_name in
  ending ← lift (last_item (split "." input_uri));
  let file_type := get_file_type ending in
  let config := mkLoadJobConfig (Some true) (Some WRITE_APPEND) (Some file_type) in
  id_l ← create_job_id project_id "loadJob";
  loadJob ← new_job (LoadJob id_l input_uri output_table config);
  r_l ← get_results loadJob;
  let job_results := <["loadJob" := r_l]> job_results in
  mret job_results.

(** [BQ.copy_tables]: the body is one assignment to a local; the function
    falls off its end and returns [None]. *)
Definition copy_tables (destination_table source_tables : value) : M value :=
  let job_results : gmap string job_result := ∅ in
  mret PyNone.

(** [BQ.__init__].  [logging.basicConfig()] and the logger's set-up have
    no effect that the events record. *)
Definition init (bq_secret_location : string) : M unit :=
  text ← read_file bq_secret_location;
  bq_sa ← lift (json_load W text);
  write_file "bq-sa.json" (json_dump W bq_sa);;
  client_from_service_account_json "bq-sa.json".

End methods.
End BQ.
Export BQ.

(* ===================================================================== *)
(** ** A reference JSON codec *)
(* ===================================================================== *)

(** [json.load] and [json.dump] belong to Python's library, and the
    general statements below hold for any codec.  For evaluating the
    constructor on concrete files, [SimpleJson] implements them on the
    fragment of JSON made of objects, arrays, integers, [true], [false],
    [null] and strings of printable ASCII characters without escapes.
    On that fragment [loads] builds the value [json.load] builds and
    [dumps] prints it the way [json.dump] does with its default
    separators, ", " and ": ".  A text outside the fragment is refused. *)

Module SimpleJson.

Inductive token :=
| TLBrace | TRBrace | TLBracket | TRBracket | TColon | TComma
| TStr (s : string) | TInt (n : Z) | TTrue | TFalse | TNull.

Definition dquote : ascii := ascii_of_nat 34.
Definition backslash : ascii := ascii_of_nat 92.

Definition is_ws (c : ascii) : bool :=
  let n := nat_of_ascii c in
  (n =? 32)%nat || (n =? 9)%nat || (n =? 10)%nat || (n =? 13)%nat.

Definition is_digit (c : ascii) : bool :=
  let n := nat_of_ascii c in (48 <=? n)%nat && (n <=? 57)%nat.

Definition is_plain (c : ascii) : bool :=
  let n := nat_of_ascii c in
  (32 <=? n)%nat && (n <? 127)%nat
  && negb (Ascii.eqb c dquote) && negb (Ascii.eqb c backslash).

(** The characters of a string literal up to its closing quote, and what
    follows the quote. *)
Fixpoint read_string (s : string) : option (string * string) :=
  match s with
  | EmptyString => None
  | String c rest =>
      if Ascii.eqb c dquote then Some (EmptyString, rest)
      else if is_plain c then
        match read_string rest with
        | Some (str, rest') => Some (String c str, rest')
        | None => None
        end
      else None
  end.

(** The digits at the head of [s], read as a number after [acc]. *)
Fixpoint read_digits (acc : Z) (s : string) : Z * string :=
  match s with
  | String c rest =>
      if is_digit c
      then read_digits (10 * acc + Z.of_nat (nat_of_ascii c - 48)) rest
      else (acc, s)
  | EmptyString => (acc, s)
  end.

Definition starts_fraction (s : string) : bool :=
  match s with
  | String c _ => Ascii.eqb c "." || Ascii.eqb c "e" || Ascii.eqb c "E"
  | EmptyString => false
  end.

(** An integer literal: digits not followed by a fraction or exponent. *)
Definition read_nat_literal (s : string) : option (Z * string) :=
  match s with
  | String c _ =>
      if is_digit c then
        let '(n, rest) :=
          if Ascii.eqb c "0" then (0%Z, str_from 1 s) else read_digits 0 s in
        if starts_fraction rest then None else Some (n, rest)
      else None
  | EmptyString => None
  end.

Fixpoint lex (fuel : nat) (s : string) : option (list token) :=
  match fuel with
  | O => match s with EmptyString => Some [] | _ => None end
  | S fuel' =>
      match s with
      | EmptyString => Some []
      | String c rest =>
          let one (t : token) := cons t <$> lex fuel' rest in
          if is_ws c then lex fuel' rest
          else if Ascii.eqb c "{" then one TLBrace
          else if Ascii.eqb c "}" then one TRBrace
          else if Ascii.eqb c "[" then one TLBracket
          else if Ascii.eqb c "]" then one TRBracket
          else if Ascii.eqb c ":" then one TColon
          else if Ascii.eqb c "," then one TComma
          else if Ascii.eqb c dquote then
            '(str, rest') ← read_string rest;
            cons (TStr str) <$> lex fuel' rest'
          else if Ascii.eqb c "-" then
            '(n, rest') ← read_nat_literal rest;
            cons (TInt (- n)) <$> lex fuel' rest'
          else if is_digit c then
            '(n, rest') ← read_nat_literal s;
            cons (TInt n) <$> lex fuel' rest'
          else if startswith "true" s then cons TTrue <$> lex fuel' (str_from 4 s)
          else if startswith "false" s then cons TFalse <$> lex fuel' (str_from 5 s)
          else if startswith "null" s then cons TNull <$> lex fuel' (str_from 4 s)
          else None
      end
  end.

(** [d[k] = v] on an insertion-ordered dictionary: a key already present
    keeps its place and takes the new value. *)
Fixpoint dict_set (k : string) (v : json) (d : list (string * json))
  : list (string * json) :=
  match d with
  | [] => [(k, v)]
  | (k', v') :: d' =>
      if String.eqb k k' then (k', v) :: d' else (k', v') :: dict_set k v d'
  end.

Fixpoint parse_value (fuel : nat) (ts : list token) : option (json * list token) :=
  match fuel with
  | O => None
  | S fuel' =>
      match ts with
      | TNull :: r => Some (JNull, r)
      | TTrue :: r => Some (JBool true, r)
      | TFalse :: r => Some (JBool false, r)
      | TInt n :: r => Some (JInt n, r)
      | TStr s :: r => Some (JStr s, r)
      | TLBracket :: TRBracket :: r => Some (JList [], r)
      | TLBracket :: r => parse_elements fuel' r []
      | TLBrace :: TRBrace :: r => Some (JDict [], r)
      | TLBrace :: r => parse_members fuel' r []
      | _ => None
      end
  end
with parse_elements (fuel : nat) (ts : list token) (acc : list json)
  : option (json * list token) :=
  match fuel with
  | O => None
  | S fuel' =>
      match parse_value fuel' ts with
      | Some (v, TComma :: r) => parse_elements fuel' r (acc ++ [v])
      | Some (v, TRBracket :: r) => Some (JList (acc ++ [v]), r)
      | _ => None
      end
  end
with parse_members (fuel : nat) (ts : list token) (acc : list (string * json))
  : option (json * list token) :=
  match fuel with
  | O => None
  | S fuel' =>
      match ts with
      | TStr k :: TColon :: r =>
          match parse_value fuel' r with
          | Some (v, TComma :: r') => parse_members fuel' r' (dict_set k v acc)
          | Some (v, TRBrace :: r') => Some (JDict (dict_set k v acc), r')
          | _ => None
          end
      | _ => None
      end
  end.

Definition decode_error : exn :=
  Exn JSONDecodeError "Expecting value".

(** [json.loads] *)
Definition loads (text : string) : result json :=
  match lex (String.length text) text with
  | Some ts =>
      match parse_value (2 * length ts + 2) ts with
      | Some (v, []) => Ok v
      | _ => Raise decode_error
      end
  | None => Raise decode_error
  end.

Definition quoted (s : string) : string :=
  String dquote (s ++ String dquote EmptyString).

(** [json.dumps] *)
Fixpoint dumps (v : json) : string :=
  match v with
  | JNull => "null"
  | JBool true => "true"
  | JBool false => "false"
  | JInt n => pretty n
  | JFloat repr => repr
  | JStr s => quoted s
  | JList items => "[" ++ join ", " (map dumps items) ++ "]"
  | JDict entries =>
      "{" ++ join ", " (map (λ kv, quoted kv.1 ++ ": " ++ dumps kv.2) entries)
          ++ "}"
  end.

End SimpleJson.

(* ===================================================================== *)
(** ** Vocabulary of the statements *)
(* ===================================================================== *)

(** [uri.split(".")[-1]]: the split is never empty, so the default is
    never used (lemma [last_item_split]). *)
Definition uri_suffix (uri : string) : string :=
  default EmptyString (last (split "." uri)).

(** The format both operations infer from a URI. *)
Definition format_of_uri (uri : string) : SourceFormat :=
  get_file_type (uri_suffix uri).

(** The three parts read off the fields of a split. *)
Definition parts_of_fields (uri_parts : list string)
  : result (string * string * string) :=
  match first uri_parts with
  | Raise e => Raise e
  | Ok bucket =>
      match last_item uri_parts with
      | Raise e => Raise e
      | Ok filename =>
          Ok (bucket, join "" (slice_to_end_minus 1 1 uri_parts), filename)
      end
  end.

(** Events that construct or submit a job. *)
Definition job_event (ev : event) : bool :=
  match ev with
  | JobNew _ | JobResult _ => true
  | _ => false
  end.

(** Events that log a Job Result Record. *)
Definition record_event (ev : event) : bool :=
  match ev with
  | LogInfo _ => true
  | _ => false
  end.

(** A time attribute of an SDK job: [None] or a [datetime]. *)
Definition is_time (v : option value) : bool :=
  match v with
  | Some PyNone | Some (PyDatetime _) => true
  | _ => false
  end.

(** What every job object of the SDK carries: the properties [started],
    [ended] and [errors] of the jobs' common base class. *)
Definition async_job_attrs (attrs : gmap string value) : bool :=
  is_time (attrs !! "started") && is_time (attrs !! "ended")
  && bool_decide (is_Some (attrs !! "errors")).

(** [None if not t else t.ctime()] for such a time attribute *)
Definition time_text (v : option value) : value :=
  match v with
  | Some (PyDatetime c) => PyStr c
  | _ => PyNone
  end.

(** An attribute's value, or [None] when the object lacks the attribute. *)
Definition attr_value (attrs : gmap string value) (name : string) : value :=
  default PyNone (attrs !! name).

(** The state after [c] readings of the clock and [d] random draws. *)
Definition advance (st : state) (c d : nat) : state :=
  mkState (fs st) (clock st + c) (draws st + d) (trace st).

(** The events a run adds to the trace. *)
Definition new_events {A} (m : M A) (st : state) : list event :=
  drop (length (trace st)) (trace (m st).2).

(** What [random.choice(seq)] returns at the n-th draw. *)
Definition picked_char (W : world) (seq : string) (n : nat) : string :=
  match String.get (random_index W n mod String.length seq) seq with
  | Some c => String c EmptyString
  | None => EmptyString
  end.

(** The identifier [__create_job_id] returns when the clock has been read
    [c] times and [d] draws have been made. *)
Definition job_id_at (W : world) (c d : nat) (project_id job_type : string)
  : string :=
  project_id ++ "-" ++ job_type ++ "-" ++ now_strftime W c ++ "-"
  ++ join "" (map (picked_char W (ascii_letters ++ digits)) (seq d 10)).

(** The record [__get_results] builds for a finished job of the SDK whose
    [result()] returned [res]. *)
Definition record_of (W : world) (bq_job : job) (res : value) : job_result :=
  let attrs := job_attrs W bq_job in
  mkJobResult (time_text (attrs !! "started"))
              (time_text (attrs !! "ended"))
              PyNone
              (attr_value attrs "total_bytes_billed")
              (attr_value attrs "total_bytes_processed")
              (attr_value (attrs_of res) "total_rows")
              (attr_value attrs "query_plan")
              res.

(** The message logged when a job fails. *)
Definition failure_message (e : exn) (email : string) : string :=
  "Error: " ++ str_of_exn e ++ newline ++ newline
  ++ "BQ Service Account: " ++ email ++ newline.

(** An event is not the construction of an extract job, or it constructs
    one that writes to [uri] under the configuration [cfg]. *)
Definition extract_job_uses (uri : string) (cfg : ExtractJobConfig)
           (ev : event) : Prop :=
  match ev with
  | JobNew (ExtractJob _ _ u c) => u = uri ∧ c = cfg
  | _ => True
  end.

(** An event is not the construction of an extract job, or it constructs
    one that writes to [uri] in the format [fmt]. *)
Definition extract_job_writes (uri : string) (fmt : SourceFormat)
           (ev : event) : Prop :=
  match ev with
  | JobNew (ExtractJob _ _ u c) => u = uri ∧ destination_format c = Some fmt
  | _ => True
  end.

(** An event is not the construction of a load job, or it constructs one
    that reads [uri] in the format [fmt]. *)
Definition load_job_reads (uri : string) (fmt : SourceFormat)
           (ev : event) : Prop :=
  match ev with
  | JobNew (LoadJob _ u _ c) => u = uri ∧ source_format c = Some fmt
  | _ => True
  end.

(** The load job [load_from_gcs] builds for a [table_id] of three fields,
    when the clock has been read [c] times and [d] draws have been made. *)
Definition load_job_of (W : world) (c d : nat)
           (project_id ds_id table_name input_uri : string) : job :=
  LoadJob (job_id_at W c d project_id "loadJob") input_uri
          (mkTableReference (mkDatasetReference project_id ds_id) table_name)
          (mkLoadJobConfig (Some true) (Some WRITE_APPEND)
                           (Some (format_of_uri input_uri))).

(** The query job [send_to_gcs] builds. *)
Definition query_job_of (W : world) (c d : nat) (project_id query : string)
  : job :=
  QueryJob (job_id_at W c d project_id "queryJob") query.

(* ===================================================================== *)
(** ** Concrete worlds *)
(* ===================================================================== *)

Module Demo.

Definition t0 : value := PyDatetime "Mon Jan  1 09:00:00 2024".
Definition t1 : value := PyDatetime "Mon Jan  1 09:00:07 2024".

(** A finished query job: statistics, a plan and the anonymous table that
    holds the rows. *)
Definition query_job_attrs : gmap string value :=
  <["started" := t0]> (<["ended" := t1]> (<["errors" := PyNone]>
  (<["total_bytes_billed" := PyInt 10485760]>
  (<["total_bytes_processed" := PyInt 2048]>
  (<["query_plan" := PyList [PyStr "S00: Input"; PyStr "S01: Output"]]>
  (<["destination" := PyStr "proj._anon.result"]> ∅)))))).

(** A finished load or extract job that met errors it could tolerate. *)
Definition transfer_job_attrs : gmap string value :=
  <["started" := t0]> (<["ended" := t1]>
  (<["errors" := PyList [PyStr "invalid: row 7 skipped"]]> ∅)).

(** A job object of some other class, without an [errors] attribute. *)
Definition bare_job_attrs : gmap string value :=
  <["started" := t0]> (<["ended" := t1]> ∅).

Definition attrs_by_job (j : job) : gmap string value :=
  match j with
  | QueryJob _ _ => query_job_attrs
  | _ => transfer_job_attrs
  end.

(** [QueryJob.result()] returns a row iterator; the other jobs return
    themselves. *)
Definition wait_ok (j : job) : result value :=
  match j with
  | QueryJob _ _ => Ok (PyObj (<["total_rows" := PyInt 3]> ∅))
  | _ => Ok (PyObj transfer_job_attrs)
  end.

Definition bad_request : exn :=
  Exn (OtherException "BadRequest") "400 Syntax error: Unexpected end of script".

Definition forbidden : exn :=
  Exn (OtherException "Forbidden") "403 Access Denied".

Definition table_lookup (table_id : string) : result unit :=
  if String.eqb table_id "proj.ds.tbl" then Ok tt
  else Raise (Exn NotFound ("Not found: Table " ++ table_id)).

(** Everything works; only the table proj.ds.tbl exists. *)
Definition healthy : world :=
  {| now_strftime := λ _, "2024-01-01-09-00-00";
     random_index := λ n, (7 * n + 3)%nat;
     json_load := SimpleJson.loads;
     json_dump := SimpleJson.dumps;
     client_from_json := λ _, Ok tt;
     get_table := table_lookup;
     get_service_account_email := Ok "loader@proj.iam.gserviceaccount.com";
     job_wait := wait_ok;
     job_attrs := attrs_by_job |}.

(** Every job fails with [bad_request]. *)
Definition failing_jobs : world :=
  {| now_strftime := now_strftime healthy;
     random_index := random_index healthy;
     json_load := SimpleJson.loads;
     json_dump := SimpleJson.dumps;
     client_from_json := λ _, Ok tt;
     get_table := table_lookup;
     get_service_account_email := get_service_account_email healthy;
     job_wait := λ _, Raise bad_request;
     job_attrs := attrs_by_job |}.

(** Every job fails, and so does the look-up of the service account. *)
Definition service_down : world :=
  {| now_strftime := now_strftime healthy;
     random_index := random_index healthy;
     json_load := SimpleJson.loads;
     json_dump := SimpleJson.dumps;
     client_from_json := λ _, Ok tt;
     get_table := table_lookup;
     get_service_account_email := Raise forbidden;
     job_wait := λ _, Raise bad_request;
     job_attrs := attrs_by_job |}.

Definition keyboard_interrupt : exn := Exn KeyboardInterrupt "".

(** Every wait is interrupted from the keyboard. *)
Definition interrupted : world :=
  {| now_strftime := now_strftime healthy;
     random_index := random_index healthy;
     json_load := SimpleJson.loads;
     json_dump := SimpleJson.dumps;
     client_from_json := λ _, Ok tt;
     get_table := table_lookup;
     get_service_account_email := get_service_account_email healthy;
     job_wait := λ _, Raise keyboard_interrupt;
     job_attrs := attrs_by_job |}.

(** The jobs succeed but their objects lack the [errors] attribute. *)
Definition bare_jobs : world :=
  {| now_strftime := now_strftime healthy;
     random_index := random_index healthy;
     json_load := SimpleJson.loads;
     json_dump := SimpleJson.dumps;
     client_from_json := λ _, Ok tt;
     get_table := table_lookup;
     get_service_account_email := get_service_account_email healthy;
     job_wait := wait_ok;
     job_attrs := λ _, bare_job_attrs |}.

Definition load_job : job :=
  LoadJob "proj-loadJob-2024-01-01-09-00-00-dkryFMT07e"
          "gs://bucket/in/rows.csv"
          (mkTableReference (mkDatasetReference "proj" "ds") "tbl")
          (mkLoadJobConfig (Some true) (Some WRITE_APPEND) (Some CSV)).

(** A secret file whose JSON text has no space after the colon. *)
Definition secret_text : string :=
  "{" ++ SimpleJson.quoted "type" ++ ":" ++ SimpleJson.quoted "service_account" ++ "}".

(** Two files: the secret, and a file that is not JSON. *)
Definition start : state :=
  mkState (<["/secrets/bq.json" := secret_text]>
             (<["/secrets/broken.json" := "{type: service_account"]> ∅)) 0 0 [].

End Demo.

(* ===================================================================== *)
(** ** The definitions at work *)
(* ===================================================================== *)

Example split_of_empty : split "/" "" = [""].
Proof. reflexivity. Qed.

Example split_keeps_empty_fields : split "/" "a//b/" = ["a"; ""; "b"; ""].
Proof. reflexivity. Qed.

Example get_parts_bare_name :
  get_parts "file.ext" = Ok ("file.ext", "", "file.ext").
Proof. reflexivity. Qed.

Example get_parts_bucket_and_file :
  get_parts "gs://bucket/file.ext" = Ok ("bucket", "", "file.ext").
Proof. reflexivity. Qed.

Example get_parts_trailing_slash :
  get_parts "gs://bucket/dir/" = Ok ("bucket", "dir", "").
Proof. reflexivity. Qed.

Example format_is_case_sensitive : format_of_uri "gs://b/rows.PARQUET" = CSV.
Proof. reflexivity. Qed.

Example format_without_extension : format_of_uri "gs://b/rows" = CSV.
Proof. reflexivity. Qed.

Example format_of_json : format_of_uri "gs://b/rows.json" = NEWLINE_DELIMITED_JSON.
Proof. reflexivity. Qed.

Example format_of_avro : format_of_uri "rows.tar.avro" = AVRO.
Proof. reflexivity. Qed.

Example job_id_example :
  (create_job_id Demo.healthy "proj" "loadJob" Demo.start).1
  = Ok "proj-loadJob-2024-01-01-09-00-00-dkryFMT07e".
Proof. reflexivity. Qed.

Example json_loads_nested :
  SimpleJson.loads " [1, -2 , {}, [true, null]] "
  = Ok (JList [JInt 1; JInt (-2); JDict []; JList [JBool true; JNull]]).
Proof. reflexivity. Qed.

Example json_loads_trailing_comma :
  SimpleJson.loads "[1,]" = Raise SimpleJson.decode_error.
Proof. reflexivity. Qed.

Example json_dumps_separators :
  SimpleJson.dumps (JDict [("a", JInt 1); ("b", JList [JInt 2; JNull])])
  = "{" ++ SimpleJson.quoted "a" ++ ": 1, " ++ SimpleJson.quoted "b"
    ++ ": [2, null]}".
Proof. reflexivity. Qed.

Example json_round_trip :
  SimpleJson.loads
    (SimpleJson.dumps (JDict [("a", JInt 1); ("b", JList [JStr "x y"; JBool false])]))
  = Ok (JDict [("a", JInt 1); ("b", JList [JStr "x y"; JBool false])]).
Proof. reflexivity. Qed.

(** A query exported to CSV in a healthy world: two jobs, two records. *)
Example send_to_gcs_example :
  new_events (send_to_gcs Demo.healthy "select 1" "proj" "gs://bucket/out/rows.csv" ";")
             Demo.start
  = let queryJob := QueryJob "proj-queryJob-2024-01-01-09-00-00-dkryFMT07e" "select 1" in
    let extractJob :=
      ExtractJob "proj-extractJob-2024-01-01-09-00-00-lszGNU18fm"
                 (PyStr "proj._anon.result") "gs://bucket/out/rows.csv"
                 (mkExtractJobConfig (Some CSV) (Some ";")) in
    [JobNew queryJob; JobResult queryJob;
     LogInfo (record_of Demo.healthy queryJob (PyObj (<["total_rows" := PyInt 3]> ∅)));
     JobNew extractJob; JobResult extractJob;
     LogInfo (record_of Demo.healthy extractJob (PyObj Demo.transfer_job_attrs))].
Proof. reflexivity. Qed.

(* ===================================================================== *)
(** ** Splitting and joining *)
(* ===================================================================== *)

Section split_facts.

Variable sep : ascii.

Lemma split_nonempty (s : string) : split sep s ≠ [].
Proof.
  destruct s as [|c s]; simpl; [done|].
  destruct (Ascii.eqb c sep); [done|].
  by destruct (split sep s).
Qed.

Lemma split_without_sep (x : string) :
  contains sep x = false → split sep x = [x].
Proof.
  induction x as [|c x IH]; simpl; [done|].
  destruct (Ascii.eqb c sep); [done|].
  intros H. by rewrite (IH H).
Qed.

Lemma split_app_sep (x rest : string) :
  contains sep x = false →
  split sep (x ++ String sep rest) = x :: split sep rest.
Proof.
  induction x as [|c x IH]; simpl.
  - intros _. by rewrite Ascii.eqb_refl.
  - destruct (Ascii.eqb c sep); [done|].
    intros H. by rewrite (IH H).
Qed.

Lemma split_join (segs : list string) :
  segs ≠ [] →
  Forall (λ x, contains sep x = false) segs →
  split sep (join (String sep EmptyString) segs) = segs.
Proof.
  induction segs as [|x segs IH]; [done|].
  intros _ Hall. apply Forall_cons in Hall as [Hx Hall].
  destruct segs as [|y segs].
  - simpl. by apply split_without_sep.
  - change (join (String sep EmptyString) (x :: y :: segs))
      with (x ++ String sep (join (String sep EmptyString) (y :: segs))).
    rewrite split_app_sep by done. f_equal. by apply IH.
Qed.

Lemma split_parts_without_sep (s : string) :
  Forall (λ x, contains sep x = false) (split sep s).
Proof.
  induction s as [|c s IH]; simpl.
  - by constructor.
  - destruct (Ascii.eqb c sep) eqn:E.
    + by constructor.
    + destruct (split sep s) as [|w ws]; simpl.
      * constructor; [|done]. simpl. by rewrite E.
      * apply Forall_cons in IH as [Hw Hws].
        constructor; [|done]. simpl. by rewrite E.
Qed.

Lemma join_split (s : string) :
  join (String sep EmptyString) (split sep s) = s.
Proof.
  induction s as [|c s IH]; simpl; [done|].
  destruct (Ascii.eqb c sep) eqn:E.
  - apply Ascii.eqb_eq in E as ->.
    pose proof (split_nonempty s) as Hne.
    destruct (split sep s) as [|w ws]; [done|].
    change (join (String sep EmptyString) (EmptyString :: w :: ws))
      with (String sep (join (String sep EmptyString) (w :: ws))).
    by rewrite IH.
  - pose proof (split_nonempty s) as Hne.
    destruct (split sep s) as [|w ws]; [done|].
    rewrite <- IH. destruct ws as [|w' ws]; [done|].
    reflexivity.
Qed.

(** The last field of a split: what follows the last separator, or the
    whole string when there is none. *)
Lemma last_split_suffix (s : string) :
  ∃ suffix,
    last (split sep s) = Some suffix ∧
    contains sep suffix = false ∧
    (s = suffix ∨ ∃ before, s = before ++ String sep suffix).
Proof.
  induction s as [|c s (suffix & Hlast & Hno & Hshape)]; simpl.
  - exists EmptyString. split_and!; [done|done|by left].
  - pose proof (split_nonempty s) as Hne.
    destruct (Ascii.eqb c sep) eqn:E.
    + apply Ascii.eqb_eq in E as ->.
      exists suffix. split_and!; [|done|].
      * destruct (split sep s); [done|]. by rewrite last_cons, Hlast.
      * right. destruct Hshape as [->|[before ->]].
        -- by exists EmptyString.
        -- by exists (String sep before).
    + destruct (split sep s) as [|w ws] eqn:Hs; [done|].
      destruct ws as [|w' ws].
      * simpl in Hlast. injection Hlast as ->.
        exists (String c suffix). split_and!; [done|by simpl; rewrite E|].
        destruct Hshape as [->|[before ->]]; [by left|].
        (* [s] contains the separator, so its split has two fields *)
        exfalso. pose proof (split_parts_without_sep (before ++ String sep suffix)) as Hall.
        assert (∀ b : string, (2 ≤ length (split sep (b ++ String sep suffix)))%nat) as Hlen.
        { clear. induction b as [|a b IH]; simpl.
          - rewrite Ascii.eqb_refl. simpl.
            pose proof (split_nonempty suffix). destruct (split sep suffix); [done|simpl; lia].
          - destruct (Ascii.eqb a sep); [simpl; lia|].
            destruct (split sep (b ++ String sep suffix)); simpl in *; lia. }
        specialize (Hlen before). rewrite Hs in Hlen. simpl in Hlen. lia.
      * exists suffix. split_and!; [|done|].
        -- rewrite last_cons. rewrite last_cons in Hlast.
           destruct (last (w' :: ws)) eqn:El; [done|].
           by apply last_None in El.
        -- right. destruct Hshape as [->|[before ->]].
           ++ exfalso. rewrite split_without_sep in Hs by done. done.
           ++ by exists (String c before).
Qed.

End split_facts.

(* ===================================================================== *)
(** ** [__get_parts]: bucket, path and file name of a storage URI *)
(* ===================================================================== *)

Section get_parts_facts.

Lemma get_parts_unfold (gcs_uri : string) :
  get_parts gcs_uri =
  parts_of_fields
    (split "/" (if startswith "gs://" gcs_uri then str_from 5 gcs_uri else gcs_uri)).
Proof.
  unfold get_parts, parts_of_fields.
  destruct (first _); [|done]. by destruct (last_item _).
Qed.

Lemma get_parts_prefixed (s : string) :
  get_parts ("gs://" ++ s) = parts_of_fields (split "/" s).
Proof. by rewrite get_parts_unfold. Qed.

Lemma get_parts_unprefixed (s : string) :
  startswith "gs://" s = false →
  get_parts s = parts_of_fields (split "/" s).
Proof. intros H. by rewrite get_parts_unfold, H. Qed.

(** No index is ever out of range: the parser is total. *)
Lemma get_parts_total (gcs_uri : string) :
  ∃ bucket path filename, get_parts gcs_uri = Ok (bucket, path, filename).
Proof.
  rewrite get_parts_unfold. unfold parts_of_fields, first, last_item.
  set (l := split "/" _).
  pose proof (split_nonempty "/" (if startswith "gs://" gcs_uri
                                   then str_from 5 gcs_uri else gcs_uri)) as Hne.
  fold l in Hne. destruct l as [|w ws]; [done|]. simpl.
  destruct (last (w :: ws)) eqn:El; [eauto|].
  by apply last_None in El.
Qed.

Lemma parts_of_fields_segments (bucket filename : string) (mids : list string) :
  parts_of_fields (bucket :: mids ++ [filename])
  = Ok (bucket, join "" mids, filename).
Proof.
  unfold parts_of_fields, first, last_item. simpl.
  rewrite last_cons, last_snoc.
  assert (slice_to_end_minus 1 1 (bucket :: mids ++ [filename]) = mids) as ->;
    [|done].
  unfold slice_to_end_minus.
  change (drop 1 (bucket :: mids ++ [filename])) with (mids ++ [filename])%list.
  replace (length (bucket :: mids ++ [filename]) - 1 - 1)%nat with (length mids)
    by (simpl; rewrite length_app; simpl; lia).
  apply take_app_length.
Qed.

End get_parts_facts.

(** C7, as stated, fails: when [s] itself starts with "gs://", the parser
    strips one prefix from ["gs://" ++ s] and one from [s], and is left
    with different texts.  Here [s = "gs://b/f"]: the prefixed URI gives
    bucket "gs:" and path "b", the bare one bucket "b" and an empty path. *)
Lemma get_parts_prefix_not_invariant :
  get_parts ("gs://" ++ "gs://b/f") = Ok ("gs:", "b", "f") ∧
  get_parts "gs://b/f" = Ok ("b", "", "f") ∧
  ¬ (∀ s : string, get_parts ("gs://" ++ s) = get_parts s).
Proof.
  split_and!; [done|done|].
  intros H. specialize (H "gs://b/f"). discriminate H.
Qed.

(** C7 (amended): for every string [s] that does not itself start with
    "gs://", parsing ["gs://" ++ s] and parsing [s] yield identical
    (bucket, path, filename) components. *)
Theorem get_parts_prefix_invariant (s : string) :
  startswith "gs://" s = false →
  get_parts ("gs://" ++ s) = get_parts s.
Proof.
  intros H. by rewrite get_parts_prefixed, get_parts_unprefixed.
Qed.

Lemma get_parts_prefix_invariant_witness :
  startswith "gs://" "bucket/path/file.ext" = false ∧
  get_parts ("gs://" ++ "bucket/path/file.ext") = get_parts "bucket/path/file.ext".
Proof.
  split; [reflexivity|].
  apply (get_parts_prefix_invariant "bucket/path/file.ext"). reflexivity.
Defined.

Example get_parts_gs_example :
  get_parts "gs://bucket/path/file.ext" = Ok ("bucket", "path", "file.ext").
Proof. reflexivity. Qed.

(** C10: for a URI made of a bucket, two or more intermediate segments and
    a file name, joined by "/", with or without the "gs://" prefix, the
    parser returns the bucket, the intermediate segments concatenated with
    no separator between them, and the file name. *)
Theorem get_parts_path_is_concatenation
        (bucket filename : string) (mids : list string) :
  contains "/" bucket = false →
  Forall (λ m, contains "/" m = false) mids →
  contains "/" filename = false →
  (2 ≤ length mids)%nat →
  let uri := join "/" (bucket :: mids ++ [filename]) in
  get_parts ("gs://" ++ uri) = Ok (bucket, join "" mids, filename) ∧
  (startswith "gs://" uri = false →
   get_parts uri = Ok (bucket, join "" mids, filename)).
Proof.
  intros Hb Hm Hf _ uri.
  assert (split "/" uri = bucket :: mids ++ [filename]) as Hsplit.
  { apply split_join; [done|].
    constructor; [done|]. apply Forall_app. split; [done|]. by constructor. }
  split.
  - by rewrite get_parts_prefixed, Hsplit, parts_of_fields_segments.
  - intros Hpre.
    by rewrite get_parts_unprefixed, Hsplit, parts_of_fields_segments.
Qed.

Lemma get_parts_path_is_concatenation_witness :
  get_parts "gs://bucket/a/b/file.ext" = Ok ("bucket", "ab", "file.ext") ∧
  get_parts "bucket/a/b/file.ext" = Ok ("bucket", "ab", "file.ext").
Proof.
  destruct (get_parts_path_is_concatenation "bucket" "file.ext" ["a"; "b"])
    as [H1 H2].
  - reflexivity.
  - repeat constructor.
  - reflexivity.
  - simpl. lia.
  - split; [exact H1|]. apply H2. reflexivity.
Defined.

(* ===================================================================== *)
(** ** Running the effect monad *)
(* ===================================================================== *)

Section run_facts.

Context {A B : Type}.

Lemma run_bind (m : M A) (k : A → M B) (st : state) :
  (m ≫= k) st = match m st with
                | (Ok a, st') => k a st'
                | (Raise e, st') => (Raise e, st')
                end.
Proof. reflexivity. Qed.

Lemma run_bind_ok (m : M A) (k : A → M B) (st st' : state) (a : A) :
  m st = (Ok a, st') → (m ≫= k) st = k a st'.
Proof. intros H. by rewrite run_bind, H. Qed.

Lemma run_bind_raise (m : M A) (k : A → M B) (st st' : state) (e : exn) :
  m st = (Raise e, st') → (m ≫= k) st = (Raise e, st').
Proof. intros H. by rewrite run_bind, H. Qed.

End run_facts.

Lemma add_events_nil (st : state) : add_events st [] = st.
Proof. destruct st. unfold add_events. simpl. by rewrite app_nil_r. Qed.

Lemma add_events_app (st : state) (evs evs' : list event) :
  add_events (add_events st evs) evs' = add_events st (evs ++ evs')%list.
Proof. unfold add_events. simpl. by rewrite app_assoc. Qed.

Lemma trace_add_events (st : state) (evs : list event) :
  trace (add_events st evs) = (trace st ++ evs)%list.
Proof. reflexivity. Qed.

Lemma fs_add_events (st : state) (evs : list event) :
  fs (add_events st evs) = fs st.
Proof. reflexivity. Qed.

Lemma advance_0 (st : state) : advance st 0 0 = st.
Proof. destruct st. unfold advance. simpl. by rewrite !Nat.add_0_r. Qed.

Lemma advance_advance (st : state) (c d c' d' : nat) :
  advance (advance st c d) c' d' = advance st (c + c') (d + d').
Proof. unfold advance. simpl. by rewrite !Nat.add_assoc. Qed.

Lemma run_tick_draw (st : state) : tick_draw st = (Ok (draws st), advance st 0 1).
Proof.
  unfold tick_draw, advance. by rewrite Nat.add_0_r, Nat.add_1_r.
Qed.

Lemma run_tick_clock (st : state) : tick_clock st = (Ok (clock st), advance st 1 0).
Proof.
  unfold tick_clock, advance. by rewrite Nat.add_0_r, Nat.add_1_r.
Qed.

Lemma string_get_in_range (s : string) (n : nat) :
  (n < String.length s)%nat → ∃ c, String.get n s = Some c.
Proof.
  revert n. induction s as [|a s IH]; simpl; intros n Hn; [lia|].
  destruct n as [|n]; [eauto|]. apply IH. lia.
Qed.

Section job_id_facts.

Variable W : world.

Lemma random_choice_run (seq : string) (st : state) :
  seq ≠ EmptyString →
  random_choice W seq st = (Ok (picked_char W seq (draws st)), advance st 0 1).
Proof.
  intros Hne. unfold random_choice, picked_char.
  rewrite (run_bind_ok _ _ _ _ _ (run_tick_draw st)).
  destruct (string_get_in_range seq (random_index W (draws st) mod String.length seq))
    as [c Hc].
  { apply Nat.mod_upper_bound. by destruct seq. }
  by rewrite Hc.
Qed.

Lemma random_choices_run (n : nat) (seq : string) (st : state) :
  seq ≠ EmptyString →
  random_choices W n seq st
  = (Ok (map (picked_char W seq) (List.seq (draws st) n)), advance st 0 n).
Proof.
  intros Hne. revert st. induction n as [|n IH]; intros st; simpl.
  - by rewrite advance_0.
  - rewrite (run_bind_ok _ _ _ _ _ (random_choice_run seq st Hne)).
    rewrite (run_bind_ok _ _ _ _ _ (IH (advance st 0 1))).
    rewrite advance_advance. simpl. by rewrite Nat.add_1_r.
Qed.

(** [__create_job_id] always returns, reads the clock once, draws ten
    times and touches nothing else. *)
Lemma create_job_id_run (project_id job_type : string) (st : state) :
  create_job_id W project_id job_type st
  = (Ok (job_id_at W (clock st) (draws st) project_id job_type), advance st 1 10).
Proof.
  unfold create_job_id.
  rewrite (run_bind_ok _ _ _ _ _
             (random_choices_run 10 (ascii_letters ++ digits) st ltac:(done))).
  unfold now_formatted. rewrite run_bind, run_bind, run_tick_clock.
  cbn [Eff.ret mret M_ret]. rewrite advance_advance.
  unfold job_id_at. simpl. by rewrite Nat.add_0_r.
Qed.

End job_id_facts.

Lemma add_events_advance (st : state) (c d : nat) (evs : list event) :
  add_events (advance st c d) evs = advance (add_events st evs) c d.
Proof. reflexivity. Qed.

Lemma trace_advance (st : state) (c d : nat) : trace (advance st c d) = trace st.
Proof. reflexivity. Qed.

(* ===================================================================== *)
(** ** [__get_results] *)
(* ===================================================================== *)

Section get_results_facts.

Variable W : world.

Lemma attr_or_none_run (obj : value) (name : string) (st : state) :
  attr_or_none obj name st = (Ok (attr_value (attrs_of obj) name), st).
Proof.
  unfold attr_or_none, hasattr, getattr, attr_value, lift.
  by destruct (attrs_of obj !! name) as [v|] eqn:E.
Qed.

(** Reading a time attribute leaves the state alone; on [None] or a
    [datetime] it yields [None] or the text of the date, and it can only
    raise an [AttributeError], on an attribute that is neither. *)
Lemma ctime_or_none_run (obj : value) (name : string) (st : state) :
  ∃ r, ctime_or_none obj name st = (r, st) ∧
       (is_time (attrs_of obj !! name) = true →
        r = Ok (time_text (attrs_of obj !! name))) ∧
       (∀ e, r = Raise e →
             exn_cls e = AttributeError ∧ is_time (attrs_of obj !! name) = false).
Proof.
  unfold ctime_or_none, getattr, lift. rewrite run_bind.
  destruct (attrs_of obj !! name) as [v|] eqn:E; simpl.
  - destruct (truthy v) eqn:Ht; simpl.
    + rewrite run_bind.
      destruct v; simpl in *; try discriminate;
        (eexists; split_and!; [done|try done|intros e [= <-]; done]).
    + destruct v; simpl in *; try discriminate;
        (eexists; split_and!; [done|try done|intros e [=]]).
  - eexists; split_and!; [done|done|]. by intros e [= <-].
Qed.

(** The [job_errors] entry: [None] when the job has an [errors]
    attribute, and an [AttributeError] when it has none. *)
Lemma job_errors_entry_run (obj : value) (st : state) :
  (if hasattr obj "errors" then mret PyNone else lift (getattr obj "errors")) st
  = (if hasattr obj "errors" then Ok PyNone
     else Raise (attribute_error "errors"), st).
Proof.
  unfold hasattr, getattr, lift.
  by destruct (attrs_of obj !! "errors") as [v|] eqn:E.
Qed.

Lemma job_result_call_run (bq_job : job) (st : state) :
  job_result_call W bq_job st = (job_wait W bq_job, add_events st [JobResult bq_job]).
Proof. reflexivity. Qed.

(** A wait that raises outside [Exception] passes through unlogged. *)
Lemma get_results_uncaught (bq_job : job) (e : exn) (st : state) :
  job_wait W bq_job = Raise e →
  is_Exception e = false →
  get_results W bq_job st = (Raise e, add_events st [JobResult bq_job]).
Proof.
  intros Hw He. unfold get_results. rewrite run_bind.
  unfold try_except. rewrite run_bind, job_result_call_run, Hw, He. done.
Qed.

(** A wait that raises an [Exception] while the account look-up fails
    too: the look-up's exception comes out, and nothing is logged. *)
Lemma get_results_lookup_fails (bq_job : job) (e e' : exn) (st : state) :
  job_wait W bq_job = Raise e →
  is_Exception e = true →
  get_service_account_email W = Raise e' →
  get_results W bq_job st
  = (Raise e', add_events st [JobResult bq_job; GetServiceAccountEmail]).
Proof.
  intros Hw He Hm. unfold get_results. rewrite run_bind.
  unfold try_except. rewrite run_bind, job_result_call_run, Hw, He.
  unfold client_get_service_account_email, lift, emit.
  rewrite !run_bind, Hm. by rewrite add_events_app.
Qed.

(** A wait that raises an [Exception], the account look-up answering. *)
Lemma get_results_logged (bq_job : job) (e : exn) (email : string) (st : state) :
  job_wait W bq_job = Raise e →
  is_Exception e = true →
  get_service_account_email W = Ok email →
  get_results W bq_job st
  = (Raise e, add_events st [JobResult bq_job; GetServiceAccountEmail;
                             LogError (failure_message e email)]).
Proof.
  intros Hw He Hm. unfold get_results. rewrite run_bind.
  unfold try_except. rewrite run_bind, job_result_call_run, Hw, He.
  unfold client_get_service_account_email, logger_error, lift, emit.
  rewrite !run_bind, Hm. simpl. by rewrite !add_events_app.
Qed.

(** After a wait that returns, the state only gains the wait itself and,
    when the record gets built, its logging. *)
Lemma get_results_returned (bq_job : job) (res : value) (st : state) :
  job_wait W bq_job = Ok res →
  (∃ r, get_results W bq_job st
        = (Ok r, add_events st [JobResult bq_job; LogInfo r]) ∧
        is_Some (job_attrs W bq_job !! "errors") ∧
        job_errors r = PyNone ∧
        total_bytes_billed r = attr_value (job_attrs W bq_job) "total_bytes_billed" ∧
        total_bytes_processed r
          = attr_value (job_attrs W bq_job) "total_bytes_processed" ∧
        total_rows_returned r = attr_value (attrs_of res) "total_rows" ∧
        query_plan r = attr_value (job_attrs W bq_job) "query_plan" ∧
        job_results r = res ∧
        (async_job_attrs (job_attrs W bq_job) = true → r = record_of W bq_job res))
  ∨ (∃ e, get_results W bq_job st = (Raise e, add_events st [JobResult bq_job]) ∧
          exn_cls e = AttributeError ∧
          async_job_attrs (job_attrs W bq_job) = false).
Proof.
  intros Hw. unfold get_results. rewrite run_bind.
  unfold try_except. rewrite run_bind, job_result_call_run, Hw.
  cbn [Eff.ret mret M_ret].
  set (st1 := add_events st [JobResult bq_job]).
  set (obj := job_object W bq_job).
  destruct (ctime_or_none_run obj "started" st1) as (r1 & E1 & T1 & F1).
  destruct (ctime_or_none_run obj "ended" st1) as (r2 & E2 & T2 & F2).
  change (attrs_of obj) with (job_attrs W bq_job) in T1, T2, F1, F2.
  unfold async_job_attrs.
  rewrite run_bind, E1.
  destruct r1 as [v1|e1]; cycle 1.
  { right. exists e1. destruct (F1 e1 eq_refl) as [-> ->]. done. }
  rewrite run_bind, E2.
  destruct r2 as [v2|e2]; cycle 1.
  { right. exists e2. destruct (F2 e2 eq_refl) as [-> ->].
    by rewrite andb_false_r. }
  rewrite run_bind, job_errors_entry_run.
  unfold hasattr. change (attrs_of obj) with (job_attrs W bq_job).
  destruct (bool_decide (is_Some (job_attrs W bq_job !! "errors"))) eqn:Herr;
    cycle 1.
  { right. eexists. split_and!; [done|done|]. by rewrite andb_false_r. }
  left. apply bool_decide_eq_true_1 in Herr.
  rewrite run_bind, attr_or_none_run, run_bind, attr_or_none_run,
    run_bind, attr_or_none_run, run_bind, attr_or_none_run.
  change (attrs_of obj) with (job_attrs W bq_job).
  eexists. split.
  { unfold logger_info, emit. rewrite run_bind. subst st1.
    rewrite add_events_app. reflexivity. }
  split_and!; try done.
  intros [[H1 H2]%andb_true_iff _]%andb_true_iff.
  specialize (T1 H1). specialize (T2 H2).
  injection T1 as ->. injection T2 as ->. done.
Qed.

End get_results_facts.

Lemma last_item_split (uri : string) :
  last_item (split "." uri) = Ok (uri_suffix uri).
Proof.
  unfold last_item, uri_suffix.
  destruct (last_split_suffix "." uri) as (suffix & -> & _). done.
Qed.

Lemma new_events_intro {A} (m : M A) (st : state) (evs : list event) :
  trace (m st).2 = (trace st ++ evs)%list → new_events m st = evs.
Proof. intros H. unfold new_events. rewrite H. apply drop_app_length. Qed.

Section operations_facts.

Variable W : world.

(** Whatever the outcome, [__get_results] waits for its job once and
    neither constructs nor submits any other job. *)
Lemma get_results_events (bq_job : job) (st : state) :
  ∃ r evs,
    get_results W bq_job st = (r, add_events st (JobResult bq_job :: evs)) ∧
    Forall (λ ev, job_event ev = false) evs.
Proof.
  destruct (job_wait W bq_job) as [res|e] eqn:Hw.
  - destruct (get_results_returned W bq_job res st Hw)
      as [(r & -> & _)|(e & -> & _)].
    + exists (Ok r), [LogInfo r]. split; [done|]. by repeat constructor.
    + exists (Raise e), []. split; [done|]. constructor.
  - destruct (is_Exception e) eqn:He.
    + destruct (get_service_account_email W) as [email|e'] eqn:Hm.
      * rewrite (get_results_logged W bq_job e email st Hw He Hm).
        eexists _, [_; _]. split; [done|]. by repeat constructor.
      * rewrite (get_results_lookup_fails W bq_job e e' st Hw He Hm).
        eexists _, [_]. split; [done|]. by repeat constructor.
    + rewrite (get_results_uncaught W bq_job e st Hw He).
      eexists _, []. split; [done|]. constructor.
Qed.

(** A wait that raises makes [__get_results] raise; no record is built
    or logged on the way. *)
Lemma get_results_wait_raises (bq_job : job) (e : exn) (st : state) :
  job_wait W bq_job = Raise e →
  ∃ e' evs,
    get_results W bq_job st = (Raise e', add_events st (JobResult bq_job :: evs)) ∧
    Forall (λ ev, record_event ev = false ∧ job_event ev = false) evs.
Proof.
  intros Hw. destruct (is_Exception e) eqn:He.
  - destruct (get_service_account_email W) as [email|e'] eqn:Hm.
    + rewrite (get_results_logged W bq_job e email st Hw He Hm).
      eexists _, [_; _]. split; [done|]. by repeat constructor.
    + rewrite (get_results_lookup_fails W bq_job e e' st Hw He Hm).
      eexists _, [_]. split; [done|]. by repeat constructor.
  - rewrite (get_results_uncaught W bq_job e st Hw He).
    eexists _, []. split; [done|]. constructor.
Qed.

(** *** [load_from_gcs] *)

Lemma load_from_gcs_lookup_raises (table_id input_uri : string) (e : exn)
      (st : state) :
  get_table W table_id = Raise e →
  load_from_gcs W table_id input_uri st
  = (Raise (if is_NotFound e then table_not_found table_id else e),
     add_events st [GetTable table_id]).
Proof.
  intros Hg. unfold load_from_gcs. rewrite run_bind.
  unfold try_except, client_get_table, emit, lift. rewrite run_bind, Hg.
  by destruct (is_NotFound e).
Qed.

(** With the table in place and a [table_id] of three fields, the rest of
    [load_from_gcs] is the wait for the one load job. *)
Lemma load_from_gcs_run (table_id input_uri project_id ds_id table_name : string)
      (st : state) :
  get_table W table_id = Ok tt →
  split "." table_id = [project_id; ds_id; table_name] →
  let loadJob := load_job_of W (clock st) (draws st) project_id ds_id table_name
                             input_uri in
  load_from_gcs W table_id input_uri st
  = match get_results W loadJob
            (advance (add_events st [GetTable table_id; JobNew loadJob]) 1 10) with
    | (Ok r, st') => (Ok {["loadJob" := r]}, st')
    | (Raise e, st') => (Raise e, st')
    end.
Proof.
  intros Hg Hs loadJob. unfold load_from_gcs. rewrite run_bind.
  unfold try_except, client_get_table, emit, lift. rewrite run_bind, Hg.
  rewrite run_bind, Hs. cbn [unpack3].
  rewrite run_bind, last_item_split.
  rewrite run_bind, create_job_id_run.
  unfold new_job, emit. rewrite !run_bind.
  cbn [clock draws add_events Eff.ret mret M_ret].
  fold (format_of_uri input_uri).
  rewrite add_events_advance, add_events_app.
  fold (load_job_of W (clock st) (draws st) project_id ds_id table_name input_uri).
  fold loadJob. cbn [app].
  rewrite run_bind.
  destruct (get_results W loadJob _) as [[r|e] st']; [|done].
  cbn [Eff.ret mret M_ret]. by rewrite insert_empty.
Qed.

(** *** [send_to_gcs] *)

(** [send_to_gcs] is the wait for the query job, then the reading of its
    destination table, then the wait for the extract job. *)
Lemma send_to_gcs_run (query project_id output_uri delimiter : string)
      (st : state) :
  let queryJob := query_job_of W (clock st) (draws st) project_id query in
  send_to_gcs W query project_id output_uri delimiter st
  = match get_results W queryJob (advance (add_events st [JobNew queryJob]) 1 10) with
    | (Raise e, st2) => (Raise e, st2)
    | (Ok r_q, st2) =>
        match getattr (job_object W queryJob) "destination" with
        | Raise e => (Raise e, advance st2 1 10)
        | Ok destination =>
            let config :=
              if decide (format_of_uri output_uri = CSV)
              then mkExtractJobConfig (Some (format_of_uri output_uri))
                                      (Some delimiter)
              else mkExtractJobConfig (Some (format_of_uri output_uri)) None in
            let extractJob :=
              ExtractJob (job_id_at W (clock st2) (draws st2) project_id "extractJob")
                         destination output_uri config in
            match get_results W extractJob
                    (advance (add_events st2 [JobNew extractJob]) 1 10) with
            | (Raise e, st3) => (Raise e, st3)
            | (Ok r_e, st3) =>
                (Ok (<["extractJob" := r_e]> {["queryJob" := r_q]}), st3)
            end
        end
    end.
Proof.
  intros queryJob. unfold send_to_gcs.
  rewrite run_bind, create_job_id_run.
  unfold new_job, emit. rewrite !run_bind.
  cbn [Eff.ret mret M_ret]. rewrite add_events_advance.
  fold (query_job_of W (clock st) (draws st) project_id query). fold queryJob.
  rewrite run_bind.
  destruct (get_results W queryJob _) as [[r_q|e] st2]; [|done].
  rewrite run_bind. unfold lift at 1. rewrite last_item_split.
  fold (format_of_uri output_uri).
  rewrite run_bind, create_job_id_run.
  rewrite run_bind. unfold lift at 1.
  destruct (getattr (job_object W queryJob) "destination") as [destination|e];
    [|done].
  rewrite !run_bind. cbn [Eff.ret mret M_ret]. rewrite add_events_advance.
  rewrite run_bind.
  destruct (get_results W _ _) as [[r_e|e] st3]; [|done].
  cbn [Eff.ret mret M_ret]. by rewrite insert_empty.
Qed.

End operations_facts.

Ltac trace_norm :=
  cbn [trace add_events advance snd fst]; rewrite <- ?app_assoc; cbn [app].

Section events_facts.

Variable W : world.

Lemma load_from_gcs_bad_table_id (table_id input_uri : string) (st : state) :
  get_table W table_id = Ok tt →
  length (split "." table_id) ≠ 3%nat →
  ∃ e, load_from_gcs W table_id input_uri st
       = (Raise e, add_events st [GetTable table_id]) ∧
       exn_cls e = ValueError.
Proof.
  intros Hg Hlen. unfold load_from_gcs. rewrite run_bind.
  unfold try_except, client_get_table, emit, lift. rewrite run_bind, Hg.
  rewrite run_bind.
  destruct (split "." table_id) as [|a [|b [|c [|d l]]]]; simpl in Hlen;
    try done; (eexists; split; [reflexivity|reflexivity]).
Qed.

(** Every load job that [load_from_gcs] constructs reads [input_uri] in
    the format inferred from it. *)
Lemma load_from_gcs_events (table_id input_uri : string) (st : state) :
  Forall (load_job_reads input_uri (format_of_uri input_uri))
         (new_events (load_from_gcs W table_id input_uri) st).
Proof.
  destruct (get_table W table_id) as [[]|e] eqn:Hg.
  - destruct (decide (length (split "." table_id) = 3%nat)) as [Hlen|Hlen].
    + destruct (split "." table_id) as [|a [|b [|c [|d l]]]] eqn:Hs;
        try discriminate Hlen.
      pose proof (load_from_gcs_run W table_id input_uri a b c st Hg Hs) as Hrun.
      cbv zeta in Hrun.
      destruct (get_results_events W (load_job_of W (clock st) (draws st) a b c input_uri)
                  (advance (add_events st [GetTable table_id;
                     JobNew (load_job_of W (clock st) (draws st) a b c input_uri)]) 1 10))
        as (r & evs & Hr & Hevs).
      rewrite Hr in Hrun.
      erewrite new_events_intro;
        [|rewrite Hrun; destruct r; trace_norm; reflexivity].
      constructor; [done|]. constructor; [done|]. constructor; [done|].
      eapply Forall_impl; [exact Hevs|].
      by intros [] Hev.
    + destruct (load_from_gcs_bad_table_id table_id input_uri st Hg Hlen)
        as (e & Hrun & _).
      erewrite new_events_intro; [|rewrite Hrun; trace_norm; reflexivity].
      by repeat constructor.
  - erewrite new_events_intro;
      [|rewrite (load_from_gcs_lookup_raises W table_id input_uri e st Hg);
        trace_norm; reflexivity].
    by repeat constructor.
Qed.

(** Every extract job that [send_to_gcs] constructs writes to
    [output_uri] under the configuration chosen from the inferred format. *)
Lemma send_to_gcs_events (query project_id output_uri delimiter : string)
      (st : state) :
  Forall (extract_job_uses output_uri
            (if decide (format_of_uri output_uri = CSV)
             then mkExtractJobConfig (Some (format_of_uri output_uri))
                                     (Some delimiter)
             else mkExtractJobConfig (Some (format_of_uri output_uri)) None))
         (new_events (send_to_gcs W query project_id output_uri delimiter) st).
Proof.
  pose proof (send_to_gcs_run W query project_id output_uri delimiter st) as Hrun.
  cbv zeta in Hrun.
  set (queryJob := query_job_of W (clock st) (draws st) project_id query) in *.
  destruct (get_results_events W queryJob
              (advance (add_events st [JobNew queryJob]) 1 10))
    as (r & evs & Hr & Hevs).
  assert (Forall (extract_job_uses output_uri
            (if decide (format_of_uri output_uri = CSV)
             then mkExtractJobConfig (Some (format_of_uri output_uri))
                                     (Some delimiter)
             else mkExtractJobConfig (Some (format_of_uri output_uri)) None)) evs)
    as Hevs'.
  { eapply Forall_impl; [exact Hevs|]. by intros [] Hev. }
  rewrite Hr in Hrun. destruct r as [r_q|e]; cycle 1.
  { erewrite new_events_intro; [|rewrite Hrun; trace_norm; reflexivity].
    by repeat constructor. }
  destruct (getattr (job_object W queryJob) "destination") as [destination|e];
    cycle 1.
  { erewrite new_events_intro; [|rewrite Hrun; trace_norm; reflexivity].
    by repeat constructor. }
  match type of Hrun with
  | context [get_results W ?j ?s] =>
      destruct (get_results_events W j s) as (r & evs2 & Hr2 & Hevs2)
  end.
  rewrite Hr2 in Hrun.
  erewrite new_events_intro;
    [|rewrite Hrun; destruct r; trace_norm; reflexivity].
  constructor; [done|]. constructor; [done|].
  apply Forall_app. split; [done|].
  constructor; [done|]. constructor; [done|].
  eapply Forall_impl; [exact Hevs2|]. by intros [] Hev.
Qed.

End events_facts.

(* ===================================================================== *)
(** ** The Job Result Record *)
(* ===================================================================== *)

(** Whenever [__get_results] returns a record: the job has an [errors]
    attribute and [job_errors] is [None] all the same; the three other
    fields read off the job and the row count read off the result hold
    the attribute's value, or [None] when the attribute is missing. *)
Lemma get_results_fields (W : world) (bq_job : job) (st st' : state)
      (r : job_result) :
  get_results W bq_job st = (Ok r, st') →
  is_Some (job_attrs W bq_job !! "errors") ∧
  job_errors r = PyNone ∧
  total_bytes_billed r = attr_value (job_attrs W bq_job) "total_bytes_billed" ∧
  total_bytes_processed r = attr_value (job_attrs W bq_job) "total_bytes_processed" ∧
  query_plan r = attr_value (job_attrs W bq_job) "query_plan" ∧
  total_rows_returned r = attr_value (attrs_of (job_results r)) "total_rows".
Proof.
  intros Hrun.
  destruct (job_wait W bq_job) as [res|e] eqn:Hw.
  - destruct (get_results_returned W bq_job res st Hw)
      as [(r' & Hr & He & H1 & H2 & H3 & H4 & H5 & H6 & _)|(e & Hr & _)];
      rewrite Hr in Hrun; [|discriminate Hrun].
    injection Hrun as <- _. rewrite H6. done.
  - exfalso. destruct (is_Exception e) eqn:He.
    + destruct (get_service_account_email W) as [email|e'] eqn:Hm.
      * rewrite (get_results_logged W bq_job e email st Hw He Hm) in Hrun.
        discriminate Hrun.
      * rewrite (get_results_lookup_fails W bq_job e e' st Hw He Hm) in Hrun.
        discriminate Hrun.
    + rewrite (get_results_uncaught W bq_job e st Hw He) in Hrun.
      discriminate Hrun.
Qed.

(** C1 (the code departs from it): the [job_errors] entry tests
    [hasattr(bq_job, "errors")] without the [not] of its four siblings.
    On a finished job whose [errors] attribute holds a list of errors the
    record's [job_errors] is [None], not that list; on a job object
    without the attribute, no record is returned, the read raises
    [AttributeError]. *)
Theorem get_results_job_errors_inverted :
  getattr (job_object Demo.healthy Demo.load_job) "errors"
    = Ok (PyList [PyStr "invalid: row 7 skipped"]) ∧
  (get_results Demo.healthy Demo.load_job Demo.start).1
    = Ok (mkJobResult (PyStr "Mon Jan  1 09:00:00 2024")
                      (PyStr "Mon Jan  1 09:00:07 2024")
                      PyNone PyNone PyNone PyNone PyNone
                      (PyObj Demo.transfer_job_attrs)) ∧
  hasattr (job_object Demo.bare_jobs Demo.load_job) "errors" = false ∧
  (get_results Demo.bare_jobs Demo.load_job Demo.start).1
    = Raise (attribute_error "errors").
Proof. split_and!; reflexivity. Qed.

(* ===================================================================== *)
(** ** Failing jobs *)
(* ===================================================================== *)

(** C5, as stated, fails: the failure handler asks the service for the
    account's e-mail address before it logs.  When that look-up raises as
    well, nothing is logged and the look-up's exception, not the job's,
    reaches the caller. *)
Lemma get_results_failure_not_always_logged :
  job_wait Demo.service_down Demo.load_job = Raise Demo.bad_request ∧
  get_results Demo.service_down Demo.load_job Demo.start
    = (Raise Demo.forbidden,
       add_events Demo.start [JobResult Demo.load_job; GetServiceAccountEmail]) ∧
  Demo.forbidden ≠ Demo.bad_request ∧
  ¬ (∀ (W : world) (bq_job : job) (e : exn) (st : state),
       job_wait W bq_job = Raise e →
       ∃ email,
         get_results W bq_job st
         = (Raise e, add_events st [JobResult bq_job; GetServiceAccountEmail;
                                    LogError (failure_message e email)])).
Proof.
  split_and!; [reflexivity|reflexivity|discriminate|].
  intros H.
  destruct (H Demo.service_down Demo.load_job Demo.bad_request Demo.start eq_refl)
    as [email Hrun].
  discriminate Hrun.
Qed.

(** C5 (amended): for every job whose result-wait raises, [__get_results]
    raises too, and no Job Result Record is built, logged or returned.
    When the exception is an instance of [Exception] and the look-up of
    the service-account e-mail address answers, the exception is logged
    together with the address and then re-raised unchanged; when that
    look-up raises, nothing is logged and the look-up's exception is the
    one that comes out.  An exception outside [Exception] is re-raised
    unchanged, unlogged. *)
Theorem get_results_failure (W : world) (bq_job : job) (e : exn) (st : state) :
  job_wait W bq_job = Raise e →
  (∃ e' evs,
     get_results W bq_job st = (Raise e', add_events st (JobResult bq_job :: evs)) ∧
     Forall (λ ev, record_event ev = false ∧ job_event ev = false) evs) ∧
  (is_Exception e = true →
   ∀ email, get_service_account_email W = Ok email →
     get_results W bq_job st
     = (Raise e, add_events st [JobResult bq_job; GetServiceAccountEmail;
                                LogError (failure_message e email)])) ∧
  (is_Exception e = true →
   ∀ e', get_service_account_email W = Raise e' →
     get_results W bq_job st
     = (Raise e', add_events st [JobResult bq_job; GetServiceAccountEmail])) ∧
  (is_Exception e = false →
   get_results W bq_job st = (Raise e, add_events st [JobResult bq_job])).
Proof.
  intros Hw. split_and!.
  - by apply (get_results_wait_raises W bq_job e).
  - intros He email Hm. by apply get_results_logged.
  - intros He e' Hm. by apply (get_results_lookup_fails W bq_job e).
  - intros He. by apply get_results_uncaught.
Qed.

Lemma get_results_failure_witness :
  get_results Demo.failing_jobs Demo.load_job Demo.start
  = (Raise Demo.bad_request,
     add_events Demo.start
       [JobResult Demo.load_job; GetServiceAccountEmail;
        LogError (failure_message Demo.bad_request
                    "loader@proj.iam.gserviceaccount.com")]) ∧
  get_results Demo.service_down Demo.load_job Demo.start
  = (Raise Demo.forbidden,
     add_events Demo.start [JobResult Demo.load_job; GetServiceAccountEmail]) ∧
  get_results Demo.interrupted Demo.load_job Demo.start
  = (Raise Demo.keyboard_interrupt, add_events Demo.start [JobResult Demo.load_job]).
Proof.
  split_and!.
  - destruct (get_results_failure Demo.failing_jobs Demo.load_job Demo.bad_request
                Demo.start eq_refl) as (_ & Hlogged & _).
    apply Hlogged; reflexivity.
  - destruct (get_results_failure Demo.service_down Demo.load_job Demo.bad_request
                Demo.start eq_refl) as (_ & _ & Hlookup & _).
    apply Hlookup; reflexivity.
  - destruct (get_results_failure Demo.interrupted Demo.load_job
                Demo.keyboard_interrupt Demo.start eq_refl) as (_ & _ & _ & Hpass).
    apply Hpass; reflexivity.
Defined.

(* ===================================================================== *)
(** ** Loading into a table that does not exist *)
(* ===================================================================== *)

(** C4: when the look-up of [table_id] reports not-found, [load_from_gcs]
    raises a [NotFound] whose message tells the caller to create the
    table with terraform; the look-up is its only effect: no job is
    constructed or submitted. *)
Theorem load_from_gcs_table_not_found (W : world) (table_id input_uri : string)
        (e : exn) (st : state) :
  get_table W table_id = Raise e →
  is_NotFound e = true →
  load_from_gcs W table_id input_uri st
  = (Raise (Exn NotFound
              ("Create " ++ table_id
               ++ " using terraform in Github before running the container")),
     add_events st [GetTable table_id]).
Proof.
  intros Hg He.
  by rewrite (load_from_gcs_lookup_raises W table_id input_uri e st Hg), He.
Qed.

Lemma load_from_gcs_table_not_found_witness :
  load_from_gcs Demo.healthy "proj.ds.missing" "gs://bucket/in/rows.csv" Demo.start
  = (Raise (Exn NotFound
              "Create proj.ds.missing using terraform in Github before running the container"),
     add_events Demo.start [GetTable "proj.ds.missing"]).
Proof.
  apply (load_from_gcs_table_not_found Demo.healthy "proj.ds.missing"
           "gs://bucket/in/rows.csv"
           (Exn NotFound "Not found: Table proj.ds.missing")).
  - reflexivity.
  - reflexivity.
Defined.

(* ===================================================================== *)
(** ** Copying tables *)
(* ===================================================================== *)

(** C9: [copy_tables] returns [None] and leaves the state as it found it:
    no job, no event, no file. *)
Theorem copy_tables_does_nothing (destination_table source_tables : value)
        (st : state) :
  copy_tables destination_table source_tables st = (Ok PyNone, st) ∧
  new_events (copy_tables destination_table source_tables) st = [].
Proof.
  split; [reflexivity|].
  apply new_events_intro. simpl. by rewrite app_nil_r.
Qed.

(* ===================================================================== *)
(** ** The format inferred from a URI *)
(* ===================================================================== *)

Lemma extract_job_uses_writes (uri : string) (cfg : ExtractJobConfig)
      (fmt : SourceFormat) (ev : event) :
  destination_format cfg = Some fmt →
  extract_job_uses uri cfg ev → extract_job_writes uri fmt ev.
Proof.
  intros Hfmt. destruct ev as [| | | |[]| | | |]; simpl; try done.
  by intros [-> ->].
Qed.

(** C2: the format of an export or a load is chosen from the last
    dot-separated field of the URI, that is from what follows the last
    "." (or from the whole URI when it has none): "parquet" gives PARQUET,
    "json" gives NEWLINE_DELIMITED_JSON, "avro" gives AVRO and anything
    else CSV.  Every extract job [send_to_gcs] builds and every load job
    [load_from_gcs] builds carries the format chosen that way; and such a
    job is built: by [send_to_gcs] once its query job has finished, by
    [load_from_gcs] once the table is found and [table_id] has its three
    fields. *)
Theorem format_selected_by_last_suffix (W : world) (uri : string) :
  (∃ suffix,
     last_item (split "." uri) = Ok suffix ∧
     contains "." suffix = false ∧
     (uri = suffix ∨ ∃ before, uri = before ++ "." ++ suffix) ∧
     (suffix = "parquet" → format_of_uri uri = PARQUET) ∧
     (suffix = "json" → format_of_uri uri = NEWLINE_DELIMITED_JSON) ∧
     (suffix = "avro" → format_of_uri uri = AVRO) ∧
     (suffix ≠ "parquet" → suffix ≠ "json" → suffix ≠ "avro" →
      format_of_uri uri = CSV)) ∧
  (∀ query project_id delimiter st,
     Forall (extract_job_writes uri (format_of_uri uri))
            (new_events (send_to_gcs W query project_id uri delimiter) st)) ∧
  (∀ table_id st,
     Forall (load_job_reads uri (format_of_uri uri))
            (new_events (load_from_gcs W table_id uri) st)) ∧
  (∀ query project_id delimiter st res destination,
     let queryJob := query_job_of W (clock st) (draws st) project_id query in
     job_wait W queryJob = Ok res →
     async_job_attrs (job_attrs W queryJob) = true →
     job_attrs W queryJob !! "destination" = Some destination →
     ∃ job_id config,
       destination_format config = Some (format_of_uri uri) ∧
       JobNew (ExtractJob job_id destination uri config)
       ∈ new_events (send_to_gcs W query project_id uri delimiter) st) ∧
  (∀ table_id project_id ds_id table_name st,
     get_table W table_id = Ok tt →
     split "." table_id = [project_id; ds_id; table_name] →
     ∃ job_id destination config,
       source_format config = Some (format_of_uri uri) ∧
       JobNew (LoadJob job_id uri destination config)
       ∈ new_events (load_from_gcs W table_id uri) st).
Proof.
  split_and!.
  - destruct (last_split_suffix "." uri) as (suffix & Hlast & Hno & Hshape).
    exists suffix.
    assert (uri_suffix uri = suffix) as Hsuf by (unfold uri_suffix; by rewrite Hlast).
    unfold format_of_uri. rewrite Hsuf.
    split_and!.
    + unfold last_item. by rewrite Hlast.
    + done.
    + done.
    + by intros ->.
    + by intros ->.
    + by intros ->.
    + intros H1 H2 H3. unfold get_file_type.
      destruct (String.eqb_spec suffix "parquet"); [done|].
      destruct (String.eqb_spec suffix "json"); [done|].
      by destruct (String.eqb_spec suffix "avro").
  - intros query project_id delimiter st.
    eapply Forall_impl; [apply send_to_gcs_events|].
    intros ev. apply extract_job_uses_writes. by case_decide.
  - intros table_id st. apply load_from_gcs_events.
  - intros query project_id delimiter st res destination queryJob Hw Hattrs Hdest.
    pose proof (send_to_gcs_run W query project_id uri delimiter st) as Hrun.
    cbv zeta in Hrun. fold queryJob in Hrun.
    destruct (get_results_returned W queryJob res
                (advance (add_events st [JobNew queryJob]) 1 10) Hw)
      as [(r & Hr & _)|(e & _ & _ & Hbad)]; [|congruence].
    rewrite Hr in Hrun.
    unfold getattr, job_object in Hrun. cbn [attrs_of] in Hrun.
    rewrite Hdest in Hrun.
    match type of Hrun with
    | context [get_results W ?j ?s] =>
        destruct (get_results_events W j s) as (r' & evs2 & Hr2 & _)
    end.
    rewrite Hr2 in Hrun.
    erewrite new_events_intro;
      [|rewrite Hrun; destruct r'; trace_norm; reflexivity].
    eexists _, _. split; [|do 3 apply list_elem_of_further; apply list_elem_of_here].
    by case_decide.
  - intros table_id project_id ds_id table_name st Hg Hs.
    pose proof (load_from_gcs_run W table_id uri project_id ds_id table_name
                  st Hg Hs) as Hrun.
    cbv zeta in Hrun.
    match type of Hrun with
    | context [get_results W ?j ?s] =>
        destruct (get_results_events W j s) as (r & evs & Hr & _)
    end.
    rewrite Hr in Hrun.
    erewrite new_events_intro;
      [|rewrite Hrun; destruct r; trace_norm; reflexivity].
    unfold load_job_of. eexists _, _, _.
    split; [|apply list_elem_of_further, list_elem_of_here].
    done.
Qed.

Lemma format_selected_by_last_suffix_witness :
  format_of_uri "gs://bucket/out/rows.2024.csv" = CSV ∧
  format_of_uri "gs://bucket/out/rows.csv.parquet" = PARQUET ∧
  (∃ job_id config,
     destination_format config = Some (format_of_uri "gs://bucket/out/rows.json") ∧
     JobNew (ExtractJob job_id (PyStr "proj._anon.result")
                        "gs://bucket/out/rows.json" config)
     ∈ new_events (send_to_gcs Demo.healthy "select 1" "proj"
                               "gs://bucket/out/rows.json" ",") Demo.start) ∧
  (∃ job_id destination config,
     source_format config = Some (format_of_uri "gs://bucket/in/rows.avro") ∧
     JobNew (LoadJob job_id "gs://bucket/in/rows.avro" destination config)
     ∈ new_events (load_from_gcs Demo.healthy "proj.ds.tbl"
                                 "gs://bucket/in/rows.avro") Demo.start).
Proof.
  split_and!.
  - destruct (format_selected_by_last_suffix Demo.healthy "gs://bucket/out/rows.2024.csv")
      as [(suffix & Hlast & _ & _ & _ & _ & _ & Hcsv) _].
    injection Hlast as <-. apply Hcsv; discriminate.
  - destruct (format_selected_by_last_suffix Demo.healthy
                "gs://bucket/out/rows.csv.parquet")
      as [(suffix & Hlast & _ & _ & Hparquet & _) _].
    injection Hlast as <-. apply Hparquet. reflexivity.
  - destruct (format_selected_by_last_suffix Demo.healthy "gs://bucket/out/rows.json")
      as (_ & _ & _ & Hextract & _).
    apply (Hextract "select 1" "proj" "," Demo.start
             (PyObj (<["total_rows" := PyInt 3]> ∅)) (PyStr "proj._anon.result"));
      reflexivity.
  - destruct (format_selected_by_last_suffix Demo.healthy "gs://bucket/in/rows.avro")
      as (_ & _ & _ & _ & Hload).
    apply (Hload "proj.ds.tbl" "proj" "ds" "tbl" Demo.start); reflexivity.
Defined.

(* ===================================================================== *)
(** ** The configuration of the extract job *)
(* ===================================================================== *)

(** C3: every extract job [send_to_gcs] constructs writes to [output_uri];
    when the format inferred from [output_uri] is CSV its configuration
    is the destination format CSV with the [delimiter] argument as field
    delimiter, otherwise it is the inferred destination format alone,
    with no delimiter.  Once the query job has finished, an extract job
    is indeed constructed.  Without a [delimiter] argument the delimiter
    is ",". *)
Theorem send_to_gcs_extract_config (W : world)
        (query project_id output_uri delimiter : string) (st : state) :
  (format_of_uri output_uri = CSV →
   Forall (extract_job_uses output_uri
             (mkExtractJobConfig (Some CSV) (Some delimiter)))
          (new_events (send_to_gcs W query project_id output_uri delimiter) st)) ∧
  (format_of_uri output_uri ≠ CSV →
   Forall (extract_job_uses output_uri
             (mkExtractJobConfig (Some (format_of_uri output_uri)) None))
          (new_events (send_to_gcs W query project_id output_uri delimiter) st)) ∧
  (let queryJob := query_job_of W (clock st) (draws st) project_id query in
   ∀ res destination,
     job_wait W queryJob = Ok res →
     async_job_attrs (job_attrs W queryJob) = true →
     job_attrs W queryJob !! "destination" = Some destination →
     ∃ job_id config,
       JobNew (ExtractJob job_id destination output_uri config)
       ∈ new_events (send_to_gcs W query project_id output_uri delimiter) st) ∧
  send_to_gcs_default W query project_id output_uri
  = send_to_gcs W query project_id output_uri ",".
Proof.
  pose proof (send_to_gcs_events W query project_id output_uri delimiter st) as Hev.
  split_and!.
  - intros Hcsv. rewrite decide_True in Hev by done. by rewrite Hcsv in Hev.
  - intros Hne. by rewrite decide_False in Hev by done.
  - intros queryJob res destination Hw Hattrs Hdest.
    pose proof (send_to_gcs_run W query project_id output_uri delimiter st) as Hrun.
    cbv zeta in Hrun. fold queryJob in Hrun.
    destruct (get_results_returned W queryJob res
                (advance (add_events st [JobNew queryJob]) 1 10) Hw)
      as [(r & Hr & _)|(e & _ & _ & Hbad)]; [|congruence].
    rewrite Hr in Hrun.
    unfold getattr, job_object in Hrun. cbn [attrs_of] in Hrun.
    rewrite Hdest in Hrun.
    match type of Hrun with
    | context [get_results W ?j ?s] =>
        destruct (get_results_events W j s) as (r' & evs2 & Hr2 & _)
    end.
    rewrite Hr2 in Hrun.
    erewrite new_events_intro;
      [|rewrite Hrun; destruct r'; trace_norm; reflexivity].
    eexists _, _. do 3 apply list_elem_of_further. apply list_elem_of_here.
  - reflexivity.
Qed.

Lemma send_to_gcs_extract_config_witness :
  Forall (extract_job_uses "gs://bucket/out/rows.csv"
            (mkExtractJobConfig (Some CSV) (Some ";")))
         (new_events (send_to_gcs Demo.healthy "select 1" "proj"
                                  "gs://bucket/out/rows.csv" ";") Demo.start) ∧
  Forall (extract_job_uses "gs://bucket/out/rows.parquet"
            (mkExtractJobConfig (Some PARQUET) None))
         (new_events (send_to_gcs Demo.healthy "select 1" "proj"
                                  "gs://bucket/out/rows.parquet" ";") Demo.start) ∧
  ∃ job_id config,
    JobNew (ExtractJob job_id (PyStr "proj._anon.result")
                       "gs://bucket/out/rows.csv" config)
    ∈ new_events (send_to_gcs Demo.healthy "select 1" "proj"
                              "gs://bucket/out/rows.csv" ";") Demo.start.
Proof.
  split_and!.
  - apply (send_to_gcs_extract_config Demo.healthy "select 1" "proj"
             "gs://bucket/out/rows.csv" ";" Demo.start).
    reflexivity.
  - apply (send_to_gcs_extract_config Demo.healthy "select 1" "proj"
             "gs://bucket/out/rows.parquet" ";" Demo.start).
    discriminate.
  - destruct (send_to_gcs_extract_config Demo.healthy "select 1" "proj"
                "gs://bucket/out/rows.csv" ";" Demo.start) as (_ & _ & Hbuilt & _).
    apply (Hbuilt (PyObj (<["total_rows" := PyInt 3]> ∅)) (PyStr "proj._anon.result"));
      reflexivity.
Defined.

(* ===================================================================== *)
(** ** Loading into a table that exists *)
(* ===================================================================== *)

(** C8, as stated, fails: with the table in place and a [table_id] of
    three fields, a load job that fails makes [load_from_gcs] raise; no
    mapping is returned. *)
Lemma load_from_gcs_may_raise :
  get_table Demo.failing_jobs "proj.ds.tbl" = Ok tt ∧
  split "." "proj.ds.tbl" = ["proj"; "ds"; "tbl"] ∧
  (load_from_gcs Demo.failing_jobs "proj.ds.tbl" "gs://bucket/in/rows.csv"
                 Demo.start).1 = Raise Demo.bad_request ∧
  ¬ (∀ (W : world) (table_id input_uri project_id ds_id table_name : string)
       (st : state),
       get_table W table_id = Ok tt →
       split "." table_id = [project_id; ds_id; table_name] →
       ∃ r, (load_from_gcs W table_id input_uri st).1 = Ok {["loadJob" := r]}).
Proof.
  split_and!; [reflexivity|reflexivity|reflexivity|].
  intros H.
  destruct (H Demo.failing_jobs "proj.ds.tbl" "gs://bucket/in/rows.csv"
              "proj" "ds" "tbl" Demo.start eq_refl eq_refl) as [r Hr].
  discriminate Hr.
Qed.

(** C8 (amended): when the destination table exists and [table_id] splits
    into project, dataset and table, [load_from_gcs] looks the table up,
    then constructs and submits exactly one job: a load job from
    [input_uri] into that table, with schema autodetection, append write
    disposition and the source format inferred from [input_uri].  If the
    wait for that job returns, the operation returns the mapping whose
    only key, "loadJob", is bound to the job's result record; if the wait
    raises, the operation raises. *)
Theorem load_from_gcs_one_append_job (W : world)
        (table_id input_uri project_id ds_id table_name : string) (st : state) :
  get_table W table_id = Ok tt →
  split "." table_id = [project_id; ds_id; table_name] →
  let loadJob :=
    LoadJob (job_id_at W (clock st) (draws st) project_id "loadJob") input_uri
            (mkTableReference (mkDatasetReference project_id ds_id) table_name)
            (mkLoadJobConfig (Some true) (Some WRITE_APPEND)
                             (Some (format_of_uri input_uri))) in
  (∃ evs,
     new_events (load_from_gcs W table_id input_uri) st
     = ([GetTable table_id; JobNew loadJob; JobResult loadJob] ++ evs)%list ∧
     Forall (λ ev, job_event ev = false) evs) ∧
  (∀ res,
     job_wait W loadJob = Ok res →
     async_job_attrs (job_attrs W loadJob) = true →
     (load_from_gcs W table_id input_uri st).1
     = Ok {["loadJob" := record_of W loadJob res]}) ∧
  (∀ e,
     job_wait W loadJob = Raise e →
     ∃ e', (load_from_gcs W table_id input_uri st).1 = Raise e').
Proof.
  intros Hg Hs loadJob.
  pose proof (load_from_gcs_run W table_id input_uri project_id ds_id table_name
                st Hg Hs) as Hrun.
  cbv zeta in Hrun.
  change (load_job_of W (clock st) (draws st) project_id ds_id table_name input_uri)
    with loadJob in Hrun.
  set (st1 := advance (add_events st [GetTable table_id; JobNew loadJob]) 1 10) in *.
  split_and!.
  - destruct (get_results_events W loadJob st1) as (r & evs & Hr & Hevs).
    rewrite Hr in Hrun. exists evs. split; [|done].
    apply new_events_intro. rewrite Hrun. subst st1.
    by destruct r; trace_norm.
  - intros res Hw Hattrs.
    destruct (get_results_returned W loadJob res st1 Hw)
      as [(r & Hr & _ & _ & _ & _ & _ & _ & _ & Hrec)|(e & _ & _ & Hbad)];
      [|congruence].
    rewrite Hr in Hrun. rewrite Hrun. simpl. by rewrite (Hrec Hattrs).
  - intros e Hw.
    destruct (get_results_wait_raises W loadJob e st1 Hw) as (e' & evs & Hr & _).
    rewrite Hr in Hrun. rewrite Hrun. by exists e'.
Qed.

Lemma load_from_gcs_one_append_job_witness :
  (∃ evs,
     new_events (load_from_gcs Demo.healthy "proj.ds.tbl" "gs://bucket/in/rows.csv")
                Demo.start
     = ([GetTable "proj.ds.tbl"; JobNew Demo.load_job; JobResult Demo.load_job]
        ++ evs)%list ∧
     Forall (λ ev, job_event ev = false) evs) ∧
  (load_from_gcs Demo.healthy "proj.ds.tbl" "gs://bucket/in/rows.csv" Demo.start).1
  = Ok {["loadJob" := record_of Demo.healthy Demo.load_job
                                (PyObj Demo.transfer_job_attrs)]}.
Proof.
  destruct (load_from_gcs_one_append_job Demo.healthy "proj.ds.tbl"
              "gs://bucket/in/rows.csv" "proj" "ds" "tbl" Demo.start
              eq_refl eq_refl) as (Hevents & Hreturns & _).
  split; [exact Hevents|].
  apply Hreturns; reflexivity.
Defined.

(* ===================================================================== *)
(** ** The constructor *)
(* ===================================================================== *)

Lemma init_missing_file (W : world) (path : string) (st : state) :
  fs st !! path = None →
  init W path st = (Raise (file_not_found path), st).
Proof.
  intros Hf. unfold init. rewrite run_bind. unfold read_file. by rewrite Hf.
Qed.

(** A secret file that is not JSON: the constructor raises before it
    opens the local file. *)
Lemma init_bad_json (W : world) (path text : string) (e : exn) (st : state) :
  fs st !! path = Some text →
  json_load W text = Raise e →
  init W path st = (Raise e, add_events st [FileRead path]).
Proof.
  intros Hf Hj. unfold init. rewrite run_bind. unfold read_file. rewrite Hf.
  rewrite run_bind. unfold lift. by rewrite Hj.
Qed.


Lemma init_run (W : world) (path text : string) (bq_sa : json) (st : state) :
  fs st !! path = Some text →
  json_load W text = Ok bq_sa →
  init W path st
  = (client_from_json W (json_dump W bq_sa),
     mkState (<["bq-sa.json" := json_dump W bq_sa]> (fs st)) (clock st) (draws st)
             (trace st ++ [FileRead path;
                           FileWrite "bq-sa.json" (json_dump W bq_sa);
                           ClientFromServiceAccountJson "bq-sa.json"
                                                        (json_dump W bq_sa)])).
Proof.
  intros Hf Hj. unfold init. rewrite run_bind. unfold read_file. rewrite Hf.
  rewrite run_bind. unfold lift at 1. rewrite Hj.
  rewrite run_bind. unfold write_file.
  unfold client_from_service_account_json, get_fs. rewrite run_bind.
  cbn [fs add_events]. rewrite lookup_insert_eq.
  unfold emit, lift. rewrite run_bind. unfold add_events. simpl.
  by rewrite <- !app_assoc.
Qed.



(* ===================================================================== *)
(** ** Further properties of [__get_parts] and of the inferred format *)
(* ===================================================================== *)

Section more_split_facts.

Variable sep : ascii.

Lemma contains_app (x y : string) :
  contains sep (x ++ y) = contains sep x || contains sep y.
Proof.
  induction x as [|c x IH]; simpl; [done|].
  by destruct (Ascii.eqb c sep).
Qed.

Lemma split_two_fields (x suffix : string) :
  (2 ≤ length (split sep (x ++ String sep suffix)))%nat.
Proof.
  induction x as [|a x IH]; simpl.
  - rewrite Ascii.eqb_refl. simpl.
    pose proof (split_nonempty sep suffix).
    destruct (split sep suffix); [done|simpl; lia].
  - destruct (Ascii.eqb a sep); [simpl; lia|].
    destruct (split sep (x ++ String sep suffix)); simpl in *; lia.
Qed.

(** What follows the last separator is the last field. *)
Lemma last_split_app (x suffix : string) :
  contains sep suffix = false →
  last (split sep (x ++ String sep suffix)) = Some suffix.
Proof.
  intros Hno. induction x as [|a x IH]; simpl.
  - rewrite Ascii.eqb_refl, (split_without_sep sep suffix Hno). done.
  - pose proof (split_two_fields x suffix) as Hlen.
    destruct (Ascii.eqb a sep).
    + destruct (split sep (x ++ String sep suffix)) as [|w ws]; [done|].
      by rewrite last_cons, IH.
    + destruct (split sep (x ++ String sep suffix)) as [|w [|w' ws]];
        simpl in Hlen; try lia.
      rewrite last_cons. rewrite last_cons in IH.
      destruct (last (w' :: ws)) eqn:El; [done|].
      by apply last_None in El.
Qed.

(** The first field of a split: what precedes the first separator, or the
    whole string when there is none. *)
Lemma first_split_prefix (s : string) :
  ∃ x, split sep s !! 0%nat = Some x ∧
       contains sep x = false ∧
       (s = x ∨ ∃ rest, s = x ++ String sep rest).
Proof.
  induction s as [|c s (x & Hx & Hno & Hshape)]; simpl.
  - exists EmptyString. split_and!; [done|done|by left].
  - destruct (Ascii.eqb c sep) eqn:E.
    + apply Ascii.eqb_eq in E as ->.
      exists EmptyString. split_and!; [done|done|]. right. by exists s.
    + destruct (split sep s) as [|w ws]; [done|].
      simpl in Hx. injection Hx as ->.
      exists (String c x). split_and!; [done|by simpl; rewrite E|].
      destruct Hshape as [->|[rest ->]]; [by left|].
      right. by exists rest.
Qed.

Lemma contains_join_empty (l : list string) :
  Forall (λ x, contains sep x = false) l →
  contains sep (join "" l) = false.
Proof.
  induction l as [|x l IH]; [done|].
  intros [Hx Hl]%Forall_cons. specialize (IH Hl).
  destruct l as [|y l]; [done|].
  change (join "" (x :: y :: l)) with (x ++ "" ++ join "" (y :: l)).
  rewrite contains_app, Hx. simpl. exact IH.
Qed.

End more_split_facts.

Lemma str_app_assoc (x y z : string) : (x ++ y) ++ z = x ++ (y ++ z).
Proof.
  induction x as [|c x IH]; [done|].
  change (String c ((x ++ y) ++ z) = String c (x ++ (y ++ z))). by f_equal.
Qed.

Lemma startswith_contains_slash (s : string) :
  startswith "gs://" s = true → contains "/" s = true.
Proof.
  destruct s as [|a [|b [|c [|d [|e s]]]]]; simpl; try done;
    repeat (case_match; try done).
  all: repeat match goal with
         | H : Ascii.eqb _ _ = true |- _ => apply Ascii.eqb_eq in H; subst
         end; done.
Qed.

Lemma startswith_split (p s : string) :
  startswith p s = true → s = p ++ str_from (String.length p) s.
Proof.
  revert s. induction p as [|a p IH]; intros s; simpl; [done|].
  destruct s as [|b s]; [done|].
  destruct (Ascii.eqb a b) eqn:E; [|done].
  apply Ascii.eqb_eq in E as ->. intros H.
  change (String b s = String b (p ++ str_from (String.length p) s)).
  f_equal. by apply IH.
Qed.

Lemma get_parts_free_of_slash (gcs_uri : string) :
  ∃ bucket path filename,
    get_parts gcs_uri = Ok (bucket, path, filename) ∧
    contains "/" bucket = false ∧
    contains "/" path = false ∧
    contains "/" filename = false.
Proof.
  rewrite get_parts_unfold. unfold parts_of_fields, first, last_item.
  set (s := if startswith "gs://" gcs_uri then str_from 5 gcs_uri else gcs_uri).
  pose proof (split_parts_without_sep "/" s) as Hall.
  destruct (first_split_prefix "/" s) as (b & -> & Hb & _).
  destruct (last_split_suffix "/" s) as (f & -> & Hf & _).
  eexists _, _, _. split_and!; [done|done| |done].
  apply contains_join_empty. unfold slice_to_end_minus.
  apply Forall_take, Forall_drop, Hall.
Qed.

Lemma get_parts_ends (gcs_uri : string) :
  let stripped :=
    if startswith "gs://" gcs_uri then str_from 5 gcs_uri else gcs_uri in
  ∃ bucket path filename,
    get_parts gcs_uri = Ok (bucket, path, filename) ∧
    (stripped = bucket ∨ ∃ rest, stripped = bucket ++ "/" ++ rest) ∧
    (stripped = filename ∨ ∃ before, stripped = before ++ "/" ++ filename) ∧
    (∃ before, gcs_uri = before ++ filename).
Proof.
  intros stripped. rewrite get_parts_unfold. fold stripped.
  unfold parts_of_fields, first, last_item.
  destruct (first_split_prefix "/" stripped) as (b & -> & _ & Hb).
  destruct (last_split_suffix "/" stripped) as (f & -> & _ & Hf).
  eexists _, _, _. split_and!; [done|done|done|].
  assert (∃ before, stripped = before ++ f) as [before Hs].
  { destruct Hf as [->|[before ->]]; [by exists EmptyString|].
    exists (before ++ "/"). by rewrite str_app_assoc. }
  subst stripped. destruct (startswith "gs://" gcs_uri) eqn:Hp.
  - exists ("gs://" ++ before).
    rewrite (startswith_split "gs://" gcs_uri Hp) at 1.
    change (String.length "gs://") with 5%nat. rewrite Hs.
    by rewrite str_app_assoc.
  - by exists before.
Qed.

(** X1: [__get_parts] never raises, whatever the text, and none of the
    three parts it returns contains a "/". *)
Theorem get_parts_slash_free (gcs_uri : string) :
  ∃ bucket path filename,
    get_parts gcs_uri = Ok (bucket, path, filename) ∧
    contains "/" bucket = false ∧
    contains "/" path = false ∧
    contains "/" filename = false.
Proof. apply get_parts_free_of_slash. Qed.

(** X2: with the "gs://" prefix set aside, the bucket is the text before
    the first "/" of the URI and the file name the text after its last
    "/": neither contains a "/", the URI is the bucket followed by "/"
    and a rest, and also a text followed by "/" and the file name (or, in
    both cases, the URI has no "/" and they are the URI itself).  The
    file name is always the end of the URI as given. *)
Theorem get_parts_bucket_and_filename (gcs_uri : string) :
  let stripped :=
    if startswith "gs://" gcs_uri then str_from 5 gcs_uri else gcs_uri in
  ∃ bucket path filename,
    get_parts gcs_uri = Ok (bucket, path, filename) ∧
    contains "/" bucket = false ∧
    ((contains "/" stripped = false ∧ stripped = bucket) ∨
     ∃ rest, stripped = bucket ++ "/" ++ rest) ∧
    contains "/" filename = false ∧
    ((contains "/" stripped = false ∧ stripped = filename) ∨
     ∃ before, stripped = before ++ "/" ++ filename) ∧
    (∃ before, gcs_uri = before ++ filename).
Proof.
  intros stripped.
  destruct (get_parts_ends gcs_uri) as (b & p & f & Hparts & Hb & Hf & Hend).
  fold stripped in Hb, Hf.
  destruct (get_parts_free_of_slash gcs_uri) as (b' & p' & f' & Hparts' & Hbf & _ & Hff).
  rewrite Hparts in Hparts'. injection Hparts' as <- <- <-.
  exists b, p, f. split_and!; [done|done| |done| |done].
  - destruct Hb as [Hb|Hb]; [left|by right]. split; [|done]. by rewrite Hb.
  - destruct Hf as [Hf|Hf]; [left|by right]. split; [|done]. by rewrite Hf.
Qed.

(** X3: a name without any "/" is its own bucket and its own file name,
    with an empty path. *)
Theorem get_parts_without_slash (name : string) :
  contains "/" name = false →
  get_parts name = Ok (name, EmptyString, name) ∧
  get_parts ("gs://" ++ name) = Ok (name, EmptyString, name).
Proof.
  intros Hno.
  assert (startswith "gs://" name = false) as Hpre.
  { destruct (startswith "gs://" name) eqn:E; [|done].
    apply startswith_contains_slash in E. congruence. }
  rewrite get_parts_prefixed, (get_parts_unprefixed name Hpre).
  by rewrite (split_without_sep "/" name Hno).
Qed.

Lemma get_parts_without_slash_witness :
  get_parts "rows.csv" = Ok ("rows.csv", EmptyString, "rows.csv") ∧
  get_parts "gs://rows.csv" = Ok ("rows.csv", EmptyString, "rows.csv").
Proof. apply (get_parts_without_slash "rows.csv"). reflexivity. Defined.

Lemma last_split_app_free (sep : ascii) (x y : string) :
  contains sep y = false →
  ∃ w, last (split sep x) = Some w ∧ last (split sep (x ++ y)) = Some (w ++ y).
Proof.
  intros Hy. induction x as [|a x (w & Hw & Hwy)]; simpl.
  - exists EmptyString. change (EmptyString ++ y) with y.
    by rewrite (split_without_sep sep y Hy).
  - pose proof (split_nonempty sep x) as Hx.
    pose proof (split_nonempty sep (x ++ y)) as Hxy.
    destruct (Ascii.eqb a sep).
    + exists w. split.
      * destruct (split sep x); [done|]. by rewrite last_cons, Hw.
      * destruct (split sep (x ++ y)); [done|]. by rewrite last_cons, Hwy.
    + destruct (split sep x) as [|u us] eqn:E1; [done|].
      destruct (split sep (x ++ y)) as [|v vs] eqn:E2; [done|].
      assert (us = [] ↔ vs = []) as Hsame.
      { clear -E1 E2 Hy. revert u us v vs E1 E2.
        induction x as [|b x IH]; simpl; intros u us v vs E1 E2.
        - injection E1 as <- <-. change (EmptyString ++ y) with y in E2.
          rewrite (split_without_sep sep y Hy) in E2.
          by injection E2 as <- <-.
        - destruct (Ascii.eqb b sep).
          + injection E1 as <- <-. injection E2 as <- <-.
            pose proof (split_nonempty sep x). pose proof (split_nonempty sep (x ++ y)).
            split; intros; done.
          + destruct (split sep x) as [|u' us'] eqn:F1;
              [by destruct (split_nonempty sep x)|].
            destruct (split sep (x ++ y)) as [|v' vs'] eqn:F2;
              [by destruct (split_nonempty sep (x ++ y))|].
            injection E1 as <- <-. injection E2 as <- <-.
            by apply (IH u' us' v' vs'). }
      destruct us as [|u' us].
      * assert (vs = []) as -> by (by apply Hsame).
        simpl in Hw, Hwy. injection Hw as <-. injection Hwy as ->.
        by exists (String a u).
      * destruct vs as [|v' vs]; [by destruct Hsame as [_ H]; discriminate H|].
        exists w. split.
        -- rewrite last_cons. rewrite last_cons in Hw.
           destruct (last (u' :: us)) eqn:El; [done|]. by apply last_None in El.
        -- rewrite last_cons. rewrite last_cons in Hwy.
           destruct (last (v' :: vs)) eqn:El; [done|]. by apply last_None in El.
Qed.

Lemma get_file_type_with_slash (suffix : string) :
  contains "/" suffix = true → get_file_type suffix = CSV.
Proof.
  intros H. unfold get_file_type.
  destruct (String.eqb_spec suffix "parquet") as [->|_]; [discriminate H|].
  destruct (String.eqb_spec suffix "json") as [->|_]; [discriminate H|].
  by destruct (String.eqb_spec suffix "avro") as [->|_]; [discriminate H|].
Qed.

(** X4: when the file name [__get_parts] finds in a URI has a ".", the
    format both operations infer from the URI is the one they would infer
    from the file name alone: the dots of the bucket and of the
    directories do not count. *)
Theorem format_from_filename_extension
        (gcs_uri bucket path filename : string) :
  get_parts gcs_uri = Ok (bucket, path, filename) →
  contains "." filename = true →
  format_of_uri gcs_uri = format_of_uri filename.
Proof.
  intros Hparts Hdot.
  destruct (get_parts_ends gcs_uri)
    as (b & p & f & Hparts' & _ & _ & before & Huri).
  rewrite Hparts in Hparts'. injection Hparts' as <- <- <-.
  destruct (last_split_suffix "." filename) as (suffix & Hlast & Hno & Hshape).
  destruct Hshape as [->|[pre Hf]]; [congruence|].
  unfold format_of_uri, uri_suffix. rewrite Hlast.
  rewrite Huri, Hf, <- str_app_assoc.
  by rewrite (last_split_app "." (before ++ pre) suffix Hno).
Qed.

Lemma format_from_filename_extension_witness :
  format_of_uri "gs://bucket.eu/v1.2/rows.json" = format_of_uri "rows.json".
Proof.
  apply (format_from_filename_extension "gs://bucket.eu/v1.2/rows.json"
           "bucket.eu" "v1.2" "rows.json"); reflexivity.
Defined.

(** X5: when the URI has a "/" and the file name [__get_parts] finds in it
    has no ".", the inferred format is CSV, whatever dots the bucket or
    the directories have. *)
Theorem format_without_filename_extension
        (gcs_uri bucket path filename : string) :
  get_parts gcs_uri = Ok (bucket, path, filename) →
  contains "/" gcs_uri = true →
  contains "." filename = false →
  format_of_uri gcs_uri = CSV.
Proof.
  intros Hparts Hslash Hdot.
  destruct (get_parts_ends gcs_uri)
    as (b & p & f & Hparts' & _ & Hf & _).
  rewrite Hparts in Hparts'. injection Hparts' as <- <- <-.
  assert (∃ before, gcs_uri = before ++ "/" ++ filename) as [before Huri].
  { destruct (startswith "gs://" gcs_uri) eqn:Hp.
    - pose proof (startswith_split "gs://" gcs_uri Hp) as Hsplit.
      change (String.length "gs://") with 5%nat in Hsplit.
      destruct Hf as [Hf|[before Hf]]; rewrite Hf in Hsplit.
      + by exists "gs:/".
      + exists ("gs://" ++ before). by rewrite str_app_assoc.
    - destruct Hf as [Hf|[before Hf]]; [|by exists before].
      destruct (get_parts_free_of_slash gcs_uri) as (b' & p' & f' & Hp' & _ & _ & Hfree).
      rewrite Hparts in Hp'. injection Hp' as <- <- <-. congruence. }
  destruct (last_split_app_free "." before ("/" ++ filename)) as (w & _ & Hlast).
  { done. }
  unfold format_of_uri, uri_suffix. rewrite Huri, Hlast. simpl.
  apply get_file_type_with_slash.
  rewrite contains_app. simpl. by rewrite orb_true_r.
Qed.

Lemma format_without_filename_extension_witness :
  format_of_uri "gs://bucket/export.parquet/part-0" = CSV.
Proof.
  apply (format_without_filename_extension "gs://bucket/export.parquet/part-0"
           "bucket" "export.parquet" "part-0"); reflexivity.
Defined.

(* ===================================================================== *)
(** ** Further properties of [__create_job_id] and [__get_results] *)
(* ===================================================================== *)

Lemma string_get_contains (s : string) (n : nat) (c : ascii) :
  String.get n s = Some c → contains c s = true.
Proof.
  revert n. induction s as [|a s IH]; simpl; intros n H; [done|].
  destruct n as [|n].
  - injection H as ->. by rewrite Ascii.eqb_refl.
  - destruct (Ascii.eqb a c); [done|]. by apply (IH n).
Qed.

Lemma join_single_chars (alphabet : string) (l : list string) :
  Forall (λ s, ∃ c, s = String c EmptyString ∧ contains c alphabet = true) l →
  String.length (join "" l) = length l ∧
  Forall (λ c, contains c alphabet = true) (list_ascii_of_string (join "" l)).
Proof.
  induction l as [|x l IH]; [by split; [|constructor]|].
  intros [(c & -> & Hc) Hl]%Forall_cons.
  destruct (IH Hl) as [Hlen Hall].
  destruct l as [|y l].
  - split; [done|]. by repeat constructor.
  - change (join "" (String c EmptyString :: y :: l))
      with (String c (join "" (y :: l))).
    split.
    + change (String.length (String c (join "" (y :: l))))
        with (S (String.length (join "" (y :: l)))).
      by rewrite Hlen.
    + change (list_ascii_of_string (String c (join "" (y :: l))))
        with (c :: list_ascii_of_string (join "" (y :: l))).
      by constructor.
Qed.

(** X6: [__create_job_id] always returns.  The identifier is the project,
    the job type, the formatted time and a random part, joined by "-";
    the random part has ten characters, all letters or digits.  The call
    reads the clock once, draws ten times, and neither logs nor contacts
    the service nor touches a file. *)
Theorem create_job_id_shape (W : world) (project_id job_type : string)
        (st : state) :
  ∃ random_string,
    create_job_id W project_id job_type st
    = (Ok (project_id ++ "-" ++ job_type ++ "-" ++ now_strftime W (clock st)
           ++ "-" ++ random_string),
       mkState (fs st) (clock st + 1) (draws st + 10) (trace st)) ∧
    String.length random_string = 10%nat ∧
    Forall (λ c, contains c (ascii_letters ++ digits) = true)
           (list_ascii_of_string random_string).
Proof.
  rewrite create_job_id_run. unfold job_id_at.
  eexists. split; [reflexivity|].
  destruct (join_single_chars (ascii_letters ++ digits)
              (map (picked_char W (ascii_letters ++ digits)) (seq (draws st) 10)))
    as [Hlen Hall].
  - apply Forall_map, Forall_forall. intros n _. unfold picked_char.
    destruct (string_get_in_range (ascii_letters ++ digits)
                (random_index W n mod String.length (ascii_letters ++ digits)))
      as [c Hc].
    { by apply Nat.mod_upper_bound. }
    rewrite Hc. exists c. split; [done|]. by apply string_get_contains in Hc.
  - split; [|done]. by rewrite Hlen, length_map, length_seq.
Qed.

Section more_get_results_facts.

Variable W : world.

Lemma ctime_or_none_ok (obj : value) (name : string) (st st' : state) (v : value) :
  ctime_or_none obj name st = (Ok v, st') →
  ∃ t, attrs_of obj !! name = Some t ∧
       ((truthy t = false ∧ v = PyNone) ∨ (∃ c, t = PyDatetime c ∧ v = PyStr c)).
Proof.
  unfold ctime_or_none, getattr, lift. rewrite run_bind.
  destruct (attrs_of obj !! name) as [t|] eqn:E; simpl; [|done].
  intros H. exists t. split; [done|].
  destruct (truthy t) eqn:Ht; simpl in H.
  - rewrite run_bind in H. right.
    destruct t; simpl in *; try discriminate. injection H as <- _. by eexists.
  - left. by injection H as <- _.
Qed.

Lemma ctime_or_none_missing (obj : value) (name : string) (st : state) :
  attrs_of obj !! name = None →
  ctime_or_none obj name st = (Raise (attribute_error name), st).
Proof.
  intros E. unfold ctime_or_none, getattr, lift. by rewrite run_bind, E.
Qed.

(** [__get_results] once the wait has returned [res]: the two dates are
    read, then the [errors] test decides between the record and an
    [AttributeError]. *)
Lemma get_results_after_wait (bq_job : job) (res : value) (st : state) :
  job_wait W bq_job = Ok res →
  let obj := job_object W bq_job in
  let st1 := add_events st [JobResult bq_job] in
  get_results W bq_job st
  = match ctime_or_none obj "started" st1 with
    | (Raise e, _) => (Raise e, st1)
    | (Ok v_start, _) =>
        match ctime_or_none obj "ended" st1 with
        | (Raise e, _) => (Raise e, st1)
        | (Ok v_end, _) =>
            if hasattr obj "errors" then
              let r :=
                mkJobResult v_start v_end PyNone
                  (attr_value (job_attrs W bq_job) "total_bytes_billed")
                  (attr_value (job_attrs W bq_job) "total_bytes_processed")
                  (attr_value (attrs_of res) "total_rows")
                  (attr_value (job_attrs W bq_job) "query_plan")
                  res in
              (Ok r, add_events st [JobResult bq_job; LogInfo r])
            else (Raise (attribute_error "errors"), st1)
        end
    end.
Proof.
  intros Hw obj st1. unfold get_results. rewrite run_bind.
  unfold try_except. rewrite run_bind, job_result_call_run, Hw.
  cbn [Eff.ret mret M_ret]. fold obj. fold st1.
  destruct (ctime_or_none_run obj "started" st1) as (r1 & E1 & _).
  destruct (ctime_or_none_run obj "ended" st1) as (r2 & E2 & _).
  rewrite run_bind, E1. destruct r1 as [v1|e1]; [|done].
  rewrite run_bind, E2. destruct r2 as [v2|e2]; [|done].
  rewrite run_bind, job_errors_entry_run.
  destruct (hasattr obj "errors"); [|done].
  rewrite run_bind, attr_or_none_run, run_bind, attr_or_none_run,
    run_bind, attr_or_none_run, run_bind, attr_or_none_run.
  unfold logger_info, emit. rewrite run_bind. subst st1.
  by rewrite add_events_app.
Qed.

(** A record comes out only of a wait that returned. *)
Lemma get_results_ok_wait (bq_job : job) (st st' : state) (r : job_result) :
  get_results W bq_job st = (Ok r, st') → ∃ res, job_wait W bq_job = Ok res.
Proof.
  intros Hrun. destruct (job_wait W bq_job) as [res|e] eqn:Hw; [by exists res|].
  destruct (get_results_wait_raises W bq_job e st Hw) as (e' & evs & Hr & _).
  rewrite Hr in Hrun. discriminate Hrun.
Qed.

End more_get_results_facts.

(** X7: whatever the outcome, the first thing [__get_results] does is to
    wait for its job, and it does so once: among the calls it makes
    afterwards none constructs a job and none waits for one. *)
Theorem get_results_waits_once (W : world) (bq_job : job) (st : state) :
  ∃ evs,
    new_events (get_results W bq_job) st = JobResult bq_job :: evs ∧
    Forall (λ ev, job_event ev = false) evs.
Proof.
  destruct (get_results_events W bq_job st) as (r & evs & Hr & Hevs).
  exists evs. split; [|done].
  apply new_events_intro. rewrite Hr. by trace_norm.
Qed.

Lemma get_results_logs_lemma (W : world) (bq_job : job)
      (st st' : state) (r : job_result) :
  get_results W bq_job st = (Ok r, st') →
  job_wait W bq_job = Ok (job_results r) ∧
  st' = add_events st [JobResult bq_job; LogInfo r].
Proof.
  intros Hrun. destruct (get_results_ok_wait W bq_job st st' r Hrun) as [res Hw].
  rewrite (get_results_after_wait W bq_job res st Hw) in Hrun. cbv zeta in Hrun.
  destruct (ctime_or_none _ "started" _) as [[v1|e1] s1]; [|discriminate Hrun].
  destruct (ctime_or_none _ "ended" _) as [[v2|e2] s2]; [|discriminate Hrun].
  destruct (hasattr _ "errors"); [|discriminate Hrun].
  by injection Hrun as <- <-.
Qed.

(** X8: a record that [__get_results] returns is the record it logged, its
    last act; the record's [job_results] entry is the value the wait
    returned. *)
Theorem get_results_logs_what_it_returns (W : world) (bq_job : job)
        (st st' : state) (r : job_result) :
  get_results W bq_job st = (Ok r, st') →
  job_wait W bq_job = Ok (job_results r) ∧
  st' = add_events st [JobResult bq_job; LogInfo r].
Proof. apply get_results_logs_lemma. Qed.

Lemma get_results_logs_what_it_returns_witness :
  job_wait Demo.healthy Demo.load_job
    = Ok (job_results (record_of Demo.healthy Demo.load_job
                                 (PyObj Demo.transfer_job_attrs))) ∧
  add_events Demo.start
    [JobResult Demo.load_job;
     LogInfo (record_of Demo.healthy Demo.load_job (PyObj Demo.transfer_job_attrs))]
  = add_events Demo.start
      [JobResult Demo.load_job;
       LogInfo (record_of Demo.healthy Demo.load_job (PyObj Demo.transfer_job_attrs))].
Proof.
  apply (get_results_logs_what_it_returns Demo.healthy Demo.load_job Demo.start).
  reflexivity.
Defined.

(** X9: in a record that [__get_results] returns, [start_time] is [None]
    when the job's [started] is falsy and the [ctime()] text of [started]
    otherwise, and likewise [end_time] for [ended]: [end_time] is not
    [None] exactly when the job has an end date. *)
Theorem get_results_time_fields (W : world) (bq_job : job) (st st' : state)
        (r : job_result) :
  get_results W bq_job st = (Ok r, st') →
  (∃ t, job_attrs W bq_job !! "started" = Some t ∧
        ((truthy t = false ∧ start_time r = PyNone) ∨
         (∃ c, t = PyDatetime c ∧ start_time r = PyStr c))) ∧
  (∃ t, job_attrs W bq_job !! "ended" = Some t ∧
        ((truthy t = false ∧ end_time r = PyNone) ∨
         (∃ c, t = PyDatetime c ∧ end_time r = PyStr c))).
Proof.
  intros Hrun. destruct (get_results_ok_wait W bq_job st st' r Hrun) as [res Hw].
  rewrite (get_results_after_wait W bq_job res st Hw) in Hrun. cbv zeta in Hrun.
  destruct (ctime_or_none _ "started" _) as [[v1|e1] s1] eqn:E1;
    [|discriminate Hrun].
  destruct (ctime_or_none _ "ended" _) as [[v2|e2] s2] eqn:E2;
    [|discriminate Hrun].
  destruct (hasattr _ "errors"); [|discriminate Hrun].
  injection Hrun as <- _. simpl.
  split.
  - exact (ctime_or_none_ok _ _ _ _ _ E1).
  - exact (ctime_or_none_ok _ _ _ _ _ E2).
Qed.

Lemma get_results_time_fields_witness :
  (∃ t, Demo.transfer_job_attrs !! "started" = Some t ∧
        ((truthy t = false ∧ PyStr "Mon Jan  1 09:00:00 2024" = PyNone) ∨
         (∃ c, t = PyDatetime c ∧ PyStr "Mon Jan  1 09:00:00 2024" = PyStr c))) ∧
  (∃ t, Demo.transfer_job_attrs !! "ended" = Some t ∧
        ((truthy t = false ∧ PyStr "Mon Jan  1 09:00:07 2024" = PyNone) ∨
         (∃ c, t = PyDatetime c ∧ PyStr "Mon Jan  1 09:00:07 2024" = PyStr c))).
Proof.
  apply (get_results_time_fields Demo.healthy Demo.load_job Demo.start
           (add_events Demo.start
              [JobResult Demo.load_job;
               LogInfo (record_of Demo.healthy Demo.load_job
                                  (PyObj Demo.transfer_job_attrs))])
           (record_of Demo.healthy Demo.load_job (PyObj Demo.transfer_job_attrs))).
  reflexivity.
Defined.

(** X10: in a record that [__get_results] returns, [total_bytes_billed],
    [total_bytes_processed] and [query_plan] hold the job's attribute of
    that name, and [total_rows_returned] the [total_rows] attribute of
    the value the wait returned; each is [None] when the attribute is
    missing. *)
Theorem get_results_attribute_fields (W : world) (bq_job : job) (st st' : state)
        (r : job_result) :
  get_results W bq_job st = (Ok r, st') →
  total_bytes_billed r = default PyNone (job_attrs W bq_job !! "total_bytes_billed") ∧
  total_bytes_processed r
    = default PyNone (job_attrs W bq_job !! "total_bytes_processed") ∧
  query_plan r = default PyNone (job_attrs W bq_job !! "query_plan") ∧
  total_rows_returned r = default PyNone (attrs_of (job_results r) !! "total_rows").
Proof.
  intros Hrun.
  destruct (get_results_fields W bq_job st st' r Hrun) as (_ & _ & H1 & H2 & H3 & H4).
  done.
Qed.

Lemma get_results_attribute_fields_witness :
  let queryJob := QueryJob "proj-queryJob-2024-01-01-09-00-00-dkryFMT07e" "select 1" in
  let r := record_of Demo.healthy queryJob (PyObj (<["total_rows" := PyInt 3]> ∅)) in
  total_bytes_billed r = PyInt 10485760 ∧
  total_bytes_processed r = PyInt 2048 ∧
  query_plan r = PyList [PyStr "S00: Input"; PyStr "S01: Output"] ∧
  total_rows_returned r = PyInt 3.
Proof.
  intros queryJob r.
  apply (get_results_attribute_fields Demo.healthy queryJob Demo.start
           (add_events Demo.start [JobResult queryJob; LogInfo r]) r).
  reflexivity.
Defined.

(** X11: [started] and [ended] are read without a [hasattr] guard: on a job
    object that lacks one of them, [__get_results] raises
    [AttributeError] after the wait and builds no record. *)
Theorem get_results_unguarded_dates (W : world) (bq_job : job) (res : value)
        (st : state) :
  job_wait W bq_job = Ok res →
  job_attrs W bq_job !! "started" = None ∨ job_attrs W bq_job !! "ended" = None →
  ∃ e, get_results W bq_job st = (Raise e, add_events st [JobResult bq_job]) ∧
       exn_cls e = AttributeError.
Proof.
  intros Hw Hmiss.
  rewrite (get_results_after_wait W bq_job res st Hw). cbv zeta.
  destruct (job_attrs W bq_job !! "started") as [t|] eqn:Es.
  - destruct Hmiss as [Hmiss|Hmiss]; [discriminate Hmiss|].
    destruct (ctime_or_none_run (job_object W bq_job) "started"
                (add_events st [JobResult bq_job])) as (r1 & -> & _ & F1).
    destruct r1 as [v1|e1]; [|exists e1; split; [done|by apply F1]].
    by rewrite (ctime_or_none_missing (job_object W bq_job) "ended" _ Hmiss);
      eexists.
  - by rewrite (ctime_or_none_missing (job_object W bq_job) "started" _ Es);
      eexists.
Qed.

Lemma get_results_unguarded_dates_witness :
  ∃ e, get_results
         (mkWorld (now_strftime Demo.healthy) (random_index Demo.healthy)
                  SimpleJson.loads SimpleJson.dumps (λ _, Ok tt) Demo.table_lookup
                  (Ok "loader@proj.iam.gserviceaccount.com") Demo.wait_ok
                  (λ _, <["errors" := PyNone]> ∅))
         Demo.load_job Demo.start
       = (Raise e, add_events Demo.start [JobResult Demo.load_job]) ∧
       exn_cls e = AttributeError.
Proof.
  apply (get_results_unguarded_dates _ Demo.load_job (PyObj Demo.transfer_job_attrs)).
  - reflexivity.
  - left. reflexivity.
Defined.

(* ===================================================================== *)
(** ** Further properties of the operations *)
(* ===================================================================== *)

(** X12: when the wait for the query job raises, [send_to_gcs] raises and
    stops there: the query job is the only job it constructs and waits
    for, no extract job is built. *)
Theorem send_to_gcs_stops_at_failed_query (W : world)
        (query project_id output_uri delimiter : string) (e : exn) (st : state) :
  let queryJob :=
    QueryJob (job_id_at W (clock st) (draws st) project_id "queryJob") query in
  job_wait W queryJob = Raise e →
  ∃ e' evs,
    (send_to_gcs W query project_id output_uri delimiter st).1 = Raise e' ∧
    new_events (send_to_gcs W query project_id output_uri delimiter) st
    = JobNew queryJob :: JobResult queryJob :: evs ∧
    Forall (λ ev, job_event ev = false) evs.
Proof.
  intros queryJob Hw.
  pose proof (send_to_gcs_run W query project_id output_uri delimiter st) as Hrun.
  cbv zeta in Hrun.
  change (query_job_of W (clock st) (draws st) project_id query)
    with queryJob in Hrun.
  destruct (get_results_wait_raises W queryJob e
              (advance (add_events st [JobNew queryJob]) 1 10) Hw)
    as (e' & evs & Hr & Hevs).
  rewrite Hr in Hrun. exists e', evs. split_and!.
  - by rewrite Hrun.
  - apply new_events_intro. rewrite Hrun. by trace_norm.
  - eapply Forall_impl; [exact Hevs|]. by intros ev [_ H].
Qed.

Lemma send_to_gcs_stops_at_failed_query_witness :
  ∃ e' evs,
    (send_to_gcs Demo.failing_jobs "select 1" "proj" "gs://bucket/out/rows.csv" ","
                 Demo.start).1 = Raise e' ∧
    new_events (send_to_gcs Demo.failing_jobs "select 1" "proj"
                            "gs://bucket/out/rows.csv" ",") Demo.start
    = JobNew (QueryJob "proj-queryJob-2024-01-01-09-00-00-dkryFMT07e" "select 1")
      :: JobResult (QueryJob "proj-queryJob-2024-01-01-09-00-00-dkryFMT07e" "select 1")
      :: evs ∧
    Forall (λ ev, job_event ev = false) evs.
Proof.
  apply (send_to_gcs_stops_at_failed_query Demo.failing_jobs "select 1" "proj"
           "gs://bucket/out/rows.csv" "," Demo.bad_request Demo.start).
  reflexivity.
Defined.

(** X13: when both waits return, on job objects of the SDK, [send_to_gcs]
    returns the mapping of "queryJob" and "extractJob" to the two jobs'
    records; the extract job reads the query job's [destination] table
    and is constructed only after the query job's record is logged. *)
Theorem send_to_gcs_success (W : world)
        (query project_id output_uri delimiter : string)
        (res_q res_e destination : value) (st : state) :
  let queryJob :=
    QueryJob (job_id_at W (clock st) (draws st) project_id "queryJob") query in
  let extractJob :=
    ExtractJob (job_id_at W (clock st + 1) (draws st + 10) project_id "extractJob")
               destination output_uri
               (if decide (format_of_uri output_uri = CSV)
                then mkExtractJobConfig (Some CSV) (Some delimiter)
                else mkExtractJobConfig (Some (format_of_uri output_uri)) None) in
  job_wait W queryJob = Ok res_q →
  async_job_attrs (job_attrs W queryJob) = true →
  job_attrs W queryJob !! "destination" = Some destination →
  job_wait W extractJob = Ok res_e →
  async_job_attrs (job_attrs W extractJob) = true →
  (send_to_gcs W query project_id output_uri delimiter st).1
  = Ok (<["extractJob" := record_of W extractJob res_e]>
          {["queryJob" := record_of W queryJob res_q]}) ∧
  new_events (send_to_gcs W query project_id output_uri delimiter) st
  = [JobNew queryJob; JobResult queryJob; LogInfo (record_of W queryJob res_q);
     JobNew extractJob; JobResult extractJob;
     LogInfo (record_of W extractJob res_e)].
Proof.
  intros queryJob extractJob Hwq Haq Hdest Hwe Hae.
  pose proof (send_to_gcs_run W query project_id output_uri delimiter st) as Hrun.
  cbv zeta in Hrun.
  change (query_job_of W (clock st) (draws st) project_id query)
    with queryJob in Hrun.
  destruct (get_results_returned W queryJob res_q
              (advance (add_events st [JobNew queryJob]) 1 10) Hwq)
    as [(r & Hr & _ & _ & _ & _ & _ & _ & _ & Hrec)|(e & _ & _ & Hbad)];
    [|congruence].
  rewrite (Hrec Haq) in Hr. rewrite Hr in Hrun. clear Hr Hrec r.
  unfold getattr, job_object in Hrun. cbn [attrs_of] in Hrun.
  rewrite Hdest in Hrun.
  cbn [clock draws add_events advance] in Hrun.
  assert ((if decide (format_of_uri output_uri = CSV)
           then mkExtractJobConfig (Some (format_of_uri output_uri)) (Some delimiter)
           else mkExtractJobConfig (Some (format_of_uri output_uri)) None)
          = (if decide (format_of_uri output_uri = CSV)
             then mkExtractJobConfig (Some CSV) (Some delimiter)
             else mkExtractJobConfig (Some (format_of_uri output_uri)) None))
    as Hcfg by (case_decide as Hc; [by rewrite Hc|done]).
  rewrite Hcfg in Hrun. fold extractJob in Hrun.
  match type of Hrun with
  | context [get_results W extractJob ?s] =>
      destruct (get_results_returned W extractJob res_e s Hwe)
        as [(r & Hr & _ & _ & _ & _ & _ & _ & _ & Hrec)|(e & _ & _ & Hbad)];
        [|congruence]
  end.
  rewrite (Hrec Hae) in Hr. rewrite Hr in Hrun.
  split.
  - by rewrite Hrun.
  - apply new_events_intro. rewrite Hrun. by trace_norm.
Qed.

Lemma send_to_gcs_success_witness :
  let queryJob := QueryJob "proj-queryJob-2024-01-01-09-00-00-dkryFMT07e" "select 1" in
  let extractJob :=
    ExtractJob "proj-extractJob-2024-01-01-09-00-00-lszGNU18fm"
               (PyStr "proj._anon.result") "gs://bucket/out/rows.parquet"
               (mkExtractJobConfig (Some PARQUET) None) in
  (send_to_gcs Demo.healthy "select 1" "proj" "gs://bucket/out/rows.parquet" ","
               Demo.start).1
  = Ok (<["extractJob" := record_of Demo.healthy extractJob
                                    (PyObj Demo.transfer_job_attrs)]>
          {["queryJob" := record_of Demo.healthy queryJob
                                    (PyObj (<["total_rows" := PyInt 3]> ∅))]}) ∧
  new_events (send_to_gcs Demo.healthy "select 1" "proj"
                          "gs://bucket/out/rows.parquet" ",") Demo.start
  = [JobNew queryJob; JobResult queryJob;
     LogInfo (record_of Demo.healthy queryJob (PyObj (<["total_rows" := PyInt 3]> ∅)));
     JobNew extractJob; JobResult extractJob;
     LogInfo (record_of Demo.healthy extractJob (PyObj Demo.transfer_job_attrs))].
Proof.
  apply (send_to_gcs_success Demo.healthy "select 1" "proj"
           "gs://bucket/out/rows.parquet" ","
           (PyObj (<["total_rows" := PyInt 3]> ∅))
           (PyObj Demo.transfer_job_attrs) (PyStr "proj._anon.result") Demo.start);
    reflexivity.
Defined.

(** X14: for a URI whose inferred format is not CSV, the [delimiter]
    argument of [send_to_gcs] changes nothing. *)
Theorem send_to_gcs_delimiter_ignored (W : world)
        (query project_id output_uri delimiter delimiter' : string) (st : state) :
  format_of_uri output_uri ≠ CSV →
  send_to_gcs W query project_id output_uri delimiter st
  = send_to_gcs W query project_id output_uri delimiter' st.
Proof.
  intros Hne.
  rewrite (send_to_gcs_run W query project_id output_uri delimiter st).
  rewrite (send_to_gcs_run W query project_id output_uri delimiter' st).
  cbv zeta. by rewrite !decide_False by done.
Qed.

Lemma send_to_gcs_delimiter_ignored_witness :
  send_to_gcs Demo.healthy "select 1" "proj" "gs://bucket/out/rows.avro" "," Demo.start
  = send_to_gcs Demo.healthy "select 1" "proj" "gs://bucket/out/rows.avro" "|"
                Demo.start.
Proof.
  apply (send_to_gcs_delimiter_ignored Demo.healthy "select 1" "proj"
           "gs://bucket/out/rows.avro" "," "|" Demo.start).
  discriminate.
Defined.

(** X15: whenever [send_to_gcs] returns, the mapping has exactly the keys
    "queryJob" and "extractJob"; a partial result is never returned. *)
Theorem send_to_gcs_returns_both_records (W : world)
        (query project_id output_uri delimiter : string) (st : state)
        (m : gmap string job_result) :
  (send_to_gcs W query project_id output_uri delimiter st).1 = Ok m →
  ∃ r_q r_e,
    m = <["extractJob" := r_e]> {["queryJob" := r_q]} ∧
    dom m = ({["queryJob"; "extractJob"]} : gset string) ∧
    LogInfo r_q ∈ new_events (send_to_gcs W query project_id output_uri delimiter) st ∧
    LogInfo r_e ∈ new_events (send_to_gcs W query project_id output_uri delimiter) st.
Proof.
  intros Hok.
  pose proof (send_to_gcs_run W query project_id output_uri delimiter st) as Hrun.
  cbv zeta in Hrun.
  set (queryJob := query_job_of W (clock st) (draws st) project_id query) in *.
  destruct (get_results W queryJob _) as [[r_q|e] st2] eqn:Hq; cycle 1.
  { rewrite Hrun in Hok. discriminate Hok. }
  destruct (getattr (job_object W queryJob) "destination") as [destination|e];
    cycle 1.
  { rewrite Hrun in Hok. discriminate Hok. }
  match type of Hrun with
  | context [get_results W ?j ?s] =>
      destruct (get_results W j s) as [[r_e|e] st3] eqn:He
  end; cycle 1.
  { rewrite Hrun in Hok. discriminate Hok. }
  rewrite Hrun in Hok. injection Hok as <-.
  exists r_q, r_e.
  destruct (get_results_logs_lemma W queryJob _ _ _ Hq) as [_ ->].
  destruct (get_results_logs_lemma W _ _ _ _ He) as [_ ->].
  split_and!.
  - done.
  - rewrite dom_insert_L, dom_singleton_L. set_solver.
  - erewrite new_events_intro; [|rewrite Hrun; trace_norm; reflexivity].
    do 2 apply list_elem_of_further. apply list_elem_of_here.
  - erewrite new_events_intro; [|rewrite Hrun; trace_norm; reflexivity].
    do 5 apply list_elem_of_further. apply list_elem_of_here.
Qed.

Lemma send_to_gcs_returns_both_records_witness :
  let m : gmap string job_result :=
    <["extractJob" := record_of Demo.healthy
         (ExtractJob "proj-extractJob-2024-01-01-09-00-00-lszGNU18fm"
                     (PyStr "proj._anon.result") "gs://bucket/out/rows.csv"
                     (mkExtractJobConfig (Some CSV) (Some ";")))
         (PyObj Demo.transfer_job_attrs)]>
      {["queryJob" := record_of Demo.healthy
           (QueryJob "proj-queryJob-2024-01-01-09-00-00-dkryFMT07e" "select 1")
           (PyObj (<["total_rows" := PyInt 3]> ∅))]} in
  ∃ r_q r_e,
    m = <["extractJob" := r_e]> {["queryJob" := r_q]} ∧
    dom m = ({["queryJob"; "extractJob"]} : gset string) ∧
    LogInfo r_q ∈ new_events (send_to_gcs Demo.healthy "select 1" "proj"
                                          "gs://bucket/out/rows.csv" ";") Demo.start ∧
    LogInfo r_e ∈ new_events (send_to_gcs Demo.healthy "select 1" "proj"
                                          "gs://bucket/out/rows.csv" ";") Demo.start.
Proof.
  intros m.
  apply (send_to_gcs_returns_both_records Demo.healthy "select 1" "proj"
           "gs://bucket/out/rows.csv" ";" Demo.start m).
  reflexivity.
Defined.

(** X16: [load_from_gcs] returns only when the table was found and
    [table_id] has exactly three dot-separated fields, and what it returns
    then is a mapping with the single key "loadJob". *)
Theorem load_from_gcs_returns_one_record (W : world) (table_id input_uri : string)
        (st : state) (m : gmap string job_result) :
  (load_from_gcs W table_id input_uri st).1 = Ok m →
  get_table W table_id = Ok tt ∧
  length (split "." table_id) = 3%nat ∧
  ∃ r, m = {["loadJob" := r]} ∧
       LogInfo r ∈ new_events (load_from_gcs W table_id input_uri) st.
Proof.
  intros Hok.
  destruct (get_table W table_id) as [[]|e] eqn:Hg; cycle 1.
  { rewrite (load_from_gcs_lookup_raises W table_id input_uri e st Hg) in Hok.
    discriminate Hok. }
  destruct (decide (length (split "." table_id) = 3%nat)) as [Hlen|Hlen]; cycle 1.
  { destruct (load_from_gcs_bad_table_id W table_id input_uri st Hg Hlen)
      as (e & Hrun & _).
    rewrite Hrun in Hok. discriminate Hok. }
  split_and!; [done|done|].
  destruct (split "." table_id) as [|a [|b [|c [|d l]]]] eqn:Hs;
    try discriminate Hlen.
  pose proof (load_from_gcs_run W table_id input_uri a b c st Hg Hs) as Hrun.
  cbv zeta in Hrun.
  destruct (get_results W _ _) as [[r|e] st'] eqn:Hr; cycle 1.
  { rewrite Hrun in Hok. discriminate Hok. }
  rewrite Hrun in Hok. injection Hok as <-.
  exists r. split; [done|].
  destruct (get_results_logs_lemma W _ _ _ _ Hr) as [_ ->].
  erewrite new_events_intro; [|rewrite Hrun; trace_norm; reflexivity].
  do 3 apply list_elem_of_further. apply list_elem_of_here.
Qed.

Lemma load_from_gcs_returns_one_record_witness :
  get_table Demo.healthy "proj.ds.tbl" = Ok tt ∧
  length (split "." "proj.ds.tbl") = 3%nat ∧
  ∃ r, {["loadJob" := record_of Demo.healthy Demo.load_job
                                (PyObj Demo.transfer_job_attrs)]}
       = ({["loadJob" := r]} : gmap string job_result) ∧
       LogInfo r ∈ new_events (load_from_gcs Demo.healthy "proj.ds.tbl"
                                             "gs://bucket/in/rows.csv") Demo.start.
Proof.
  apply (load_from_gcs_returns_one_record Demo.healthy "proj.ds.tbl"
           "gs://bucket/in/rows.csv" Demo.start).
  reflexivity.
Defined.

(** X17: a [table_id] that exists but does not have exactly three
    dot-separated fields makes [load_from_gcs] raise [ValueError]; the
    table has been looked up by then, and no job is constructed. *)
Theorem load_from_gcs_malformed_table_id (W : world) (table_id input_uri : string)
        (st : state) :
  get_table W table_id = Ok tt →
  length (split "." table_id) ≠ 3%nat →
  ∃ e, exn_cls e = ValueError ∧
       load_from_gcs W table_id input_uri st
       = (Raise e, mkState (fs st) (clock st) (draws st)
                           (trace st ++ [GetTable table_id])).
Proof.
  intros Hg Hlen.
  destruct (load_from_gcs_bad_table_id W table_id input_uri st Hg Hlen)
    as (e & Hrun & Hcls).
  by exists e.
Qed.

Lemma load_from_gcs_malformed_table_id_witness :
  ∃ e, exn_cls e = ValueError ∧
       load_from_gcs
         (mkWorld (now_strftime Demo.healthy) (random_index Demo.healthy)
                  SimpleJson.loads SimpleJson.dumps (λ _, Ok tt) (λ _, Ok tt)
                  (Ok "loader@proj.iam.gserviceaccount.com") Demo.wait_ok
                  Demo.attrs_by_job)
         "ds.tbl" "gs://bucket/in/rows.csv" Demo.start
       = (Raise e, mkState (fs Demo.start) 0 0 [GetTable "ds.tbl"]).
Proof.
  apply (load_from_gcs_malformed_table_id _ "ds.tbl" "gs://bucket/in/rows.csv"
           Demo.start).
  - reflexivity.
  - simpl. lia.
Defined.

(** X18: an exception of the table look-up other than [NotFound] leaves
    [load_from_gcs] as it is, unwrapped; the look-up is the only effect. *)
Theorem load_from_gcs_lookup_error_propagates (W : world)
        (table_id input_uri : string) (e : exn) (st : state) :
  get_table W table_id = Raise e →
  is_NotFound e = false →
  load_from_gcs W table_id input_uri st
  = (Raise e, mkState (fs st) (clock st) (draws st)
                      (trace st ++ [GetTable table_id])).
Proof.
  intros Hg He.
  by rewrite (load_from_gcs_lookup_raises W table_id input_uri e st Hg), He.
Qed.

Lemma load_from_gcs_lookup_error_propagates_witness :
  load_from_gcs
    (mkWorld (now_strftime Demo.healthy) (random_index Demo.healthy)
             SimpleJson.loads SimpleJson.dumps (λ _, Ok tt)
             (λ _, Raise Demo.forbidden)
             (Ok "loader@proj.iam.gserviceaccount.com") Demo.wait_ok
             Demo.attrs_by_job)
    "proj.ds.tbl" "gs://bucket/in/rows.csv" Demo.start
  = (Raise Demo.forbidden, mkState (fs Demo.start) 0 0 [GetTable "proj.ds.tbl"]).
Proof.
  apply (load_from_gcs_lookup_error_propagates _ "proj.ds.tbl"
           "gs://bucket/in/rows.csv" Demo.forbidden Demo.start); reflexivity.
Defined.

(** X20: whatever happens, the constructor changes no local file other
    than bq-sa.json. *)
Theorem init_touches_only_local_file (W : world) (bq_secret_location path : string)
        (st : state) :
  path ≠ "bq-sa.json" →
  fs (init W bq_secret_location st).2 !! path = fs st !! path.
Proof.
  intros Hne.
  destruct (fs st !! bq_secret_location) as [text|] eqn:Hf; cycle 1.
  { by rewrite (init_missing_file W bq_secret_location st Hf). }
  destruct (json_load W text) as [bq_sa|e] eqn:Hj; cycle 1.
  { by rewrite (init_bad_json W bq_secret_location text e st Hf Hj). }
  rewrite (init_run W bq_secret_location text bq_sa st Hf Hj). simpl.
  by rewrite lookup_insert_ne.
Qed.

Lemma init_touches_only_local_file_witness :
  fs (init Demo.healthy "/secrets/bq.json" Demo.start).2 !! "/secrets/bq.json"
  = fs Demo.start !! "/secrets/bq.json".
Proof.
  apply (init_touches_only_local_file Demo.healthy "/secrets/bq.json"
           "/secrets/bq.json" Demo.start).
  discriminate.
Defined.
